(** * AI receptionist: the voice relay and booking trigger of [main.py]

    A shallow embedding of [src/main.py]: the webhook dispatch
    [send_to_make], the plain-text message processor
    [process_user_message], the booking check [check_for_booking] and the
    websocket endpoint [ws_voice] with its two loops
    [receive_from_client] and [receive_from_openai].

    Python values that come out of [json.loads] are modelled by [json];
    strings are byte strings (the UTF-8 encoding of the Python [str]);
    effectful code runs in a state-and-exception monad [M] over a
    [world] that holds the mutable variables of the module and a trace of
    the calls made to the outside (sockets, language model, webhook).
    The [print] statements of the source are not modelled. *)

From Stdlib Require Import NArith ZArith List String Ascii Bool Lia.
From Stdlib Require Import Strings.Byte Floats.PrimFloat DecimalString.
Import ListNotations.

Local Open Scope string_scope.
Local Open Scope list_scope.

(* ================================================================= *)
(** ** Values *)

(** What [json.loads] can return: [None], [bool], [int], [float], [str],
    [list] and [dict].  A [dict] is the list of its items; a key is looked
    up from the front. *)
#[warnings="-register-all"]
Inductive json : Type :=
| JNull
| JBool (b : bool)
| JInt (n : Z)
| JFloat (f : float)
| JStr (s : string)
| JArr (items : list json)
| JObj (items : list (string * json)).

(** Python truth value of a [json] value, as tested by [if v:]. *)
Definition truthy (v : json) : bool :=
  match v with
  | JNull => false
  | JBool b => b
  | JInt n => negb (n =? 0)%Z
  | JFloat f => negb (PrimFloat.eqb f 0%float)
  | JStr s => negb (s =? "")
  | JArr items => match items with [] => false | _ => true end
  | JObj items => match items with [] => false | _ => true end
  end.

(** [type(v).__name__]. *)
Definition type_name (v : json) : string :=
  match v with
  | JNull => "NoneType"
  | JBool _ => "bool"
  | JInt _ => "int"
  | JFloat _ => "float"
  | JStr _ => "str"
  | JArr _ => "list"
  | JObj _ => "dict"
  end.

(** [d.get(key, default)] on the items of a dict. *)
Fixpoint dict_get (items : list (string * json)) (key : string) (default : json)
  : json :=
  match items with
  | [] => default
  | (k, v) :: rest => if k =? key then v else dict_get rest key default
  end.

(** [d[key] = value] on the items of a dict: the value of an existing key
    is replaced in place, a new key goes to the end. *)
Fixpoint dict_set (items : list (string * json)) (key : string) (value : json)
  : list (string * json) :=
  match items with
  | [] => [(key, value)]
  | (k, v) :: rest =>
      if k =? key then (k, value) :: rest else (k, v) :: dict_set rest key value
  end.

(** [v == s] for a string literal [s]. *)
Definition eq_str (v : json) (s : string) : bool :=
  match v with
  | JStr t => t =? s
  | _ => false
  end.

(** The one-character string holding a double quote. *)
Definition dquote : string := String (ascii_of_nat 34) EmptyString.

(** Decimal rendering of an integer, as an f-string prints it. *)
Definition str_of_int (n : Z) : string := NilZero.string_of_int (Z.to_int n).

(* ================================================================= *)
(** ** Strings: [in] and [str.replace] *)

(** [old in s]. *)
Fixpoint occurs (old s : string) : bool :=
  prefix old s ||
  match s with
  | EmptyString => false
  | String _ rest => occurs old rest
  end.

(** [str.replace] for a non-empty [old]: scan from the left; at an
    occurrence emit [new] and skip the rest of the occurrence ([skip]
    counts the characters of it still to pass). *)
Fixpoint replace_from (old new : string) (skip : nat) (s : string) : string :=
  match s with
  | EmptyString => EmptyString
  | String c rest =>
      match skip with
      | S k => replace_from old new k rest
      | O =>
          if prefix old s
          then new ++ replace_from old new (String.length old - 1) rest
          else String c (replace_from old new 0 rest)
      end
  end.

(** [str.replace] for an empty [old]: [new] goes before every character
    and at the end. *)
Fixpoint intersperse (new s : string) : string :=
  match s with
  | EmptyString => new
  | String c rest => new ++ String c (intersperse new rest)
  end.

(** [s.replace(old, new)]. *)
Definition replace (s old new : string) : string :=
  match old with
  | EmptyString => intersperse new s
  | String _ _ => replace_from old new 0 s
  end.

(* ================================================================= *)
(** ** Base64 *)

Definition b64_alphabet : string :=
  "ABCDEFGHIJKLMNOPQRSTUVWXYZabcdefghijklmnopqrstuvwxyz0123456789+/".

(** The character of the 6-bit group in the low bits of [n]. *)
Definition b64_char (n : N) : ascii :=
  match String.get (N.to_nat (N.land n 63)) b64_alphabet with
  | Some c => c
  | None => "="%char
  end.

(** [base64.b64encode(data).decode("utf-8")]: three bytes give four
    characters; a final group of one or two bytes is padded with [=]. *)
Fixpoint b64encode (data : list byte) : string :=
  match data with
  | [] => ""
  | [a] =>
      let n := N.shiftl (Byte.to_N a) 16 in
      String (b64_char (N.shiftr n 18))
        (String (b64_char (N.shiftr n 12)) "==")
  | [a; b] =>
      let n := N.lor (N.shiftl (Byte.to_N a) 16) (N.shiftl (Byte.to_N b) 8) in
      String (b64_char (N.shiftr n 18))
        (String (b64_char (N.shiftr n 12))
           (String (b64_char (N.shiftr n 6)) "="))
  | a :: b :: c :: rest =>
      let n := N.lor (N.lor (N.shiftl (Byte.to_N a) 16)
                            (N.shiftl (Byte.to_N b) 8))
                     (Byte.to_N c) in
      String (b64_char (N.shiftr n 18))
        (String (b64_char (N.shiftr n 12))
           (String (b64_char (N.shiftr n 6))
              (String (b64_char n) (b64encode rest))))
  end.

(** The bytes of a string, to write byte literals. *)
Definition bytes_of (s : string) : list byte := list_byte_of_string s.

(* ================================================================= *)
(** ** Data model *)

Inductive role : Type := system | user | assistant.

(** One entry of a chat history, [{"role": ..., "content": ...}].  The
    content is whatever value the code stores: a [str] in the usual case,
    [None] for a completion without text. *)
Record turn : Type := Turn { turn_role : role; turn_content : json }.

(** The [except] clause an exception selects. *)
Inductive exn_class : Type :=
| WebSocketDisconnect
| ConnectionClosed
| InvalidStatusCode (status_code : Z)
| OtherException.

(** A raised exception: the handler it selects, [type(e).__name__] and
    [str(e)]. *)
Record exn : Type :=
  Exn { exn_class_of : exn_class; exn_type : string; exn_str : string }.

Definition TypeError (msg : string) : exn := Exn OtherException "TypeError" msg.
Definition AttributeError (msg : string) : exn :=
  Exn OtherException "AttributeError" msg.

(** The message of a completion, [response.choices[0].message]:
    its [content] and, for each tool call, the result of [json.loads] on
    its [function.arguments]. *)
Record chat_message : Type :=
  ChatMessage { content : json; tool_calls : list (exn + json) }.

(** A message delivered by [websocket.receive()]. *)
Inductive asgi_message : Type :=
| ReceiveBytes (data : list byte)
| ReceiveText (text : string)
| Disconnect (code : Z).

(** [msg.get("bytes")]: [None] unless the frame is binary. *)
Definition msg_bytes (msg : asgi_message) : option (list byte) :=
  match msg with
  | ReceiveBytes data => Some data
  | _ => None
  end.

(** Calls to the outside, in the order they are made.  A call is recorded
    when it is made and the caller goes on only with its answer, so what
    follows a call in a trace was done after the call had returned.
    [Gather a b] is [asyncio.gather] of two coroutines: their calls are
    kept apart, because the order between the two is left to the event
    loop. *)
#[warnings="-register-all"]
Inductive effect : Type :=
| Accept                                 (* websocket.accept() *)
| Connect                                (* websockets.connect(OPENAI_REALTIME_URL, ...) *)
| UpstreamSend (msg : json)              (* openai_ws.send(json.dumps(msg)) *)
| UpstreamClose                          (* leaving the async with block *)
| SendJson (msg : json)                  (* websocket.send_json(msg) *)
| SendBytes (data : list byte)           (* websocket.send_bytes(data) *)
| Close                                  (* websocket.close() *)
| ChatCompletion (messages : list turn)  (* client.chat.completions.create(
                                            model, messages, tools, tool_choice) *)
| Post (url : string) (data : json)      (* requests.post(url, json=data) *)
| Gather (a b : list effect).

(** The mutable variables: the module-level [chat_history], the locals
    [session_chat_history] and [current_ai_response] of one [ws_voice]
    call, and the calls made so far. *)
Record world : Type := World {
  chat_history : list turn;
  session_chat_history : list turn;
  current_ai_response : string;
  trace : list effect
}.

(** How the outside answers.  Every answer may depend on all the calls
    made so far (the last one is the call being answered); [inl e] is the
    exception [e] raised by the call.

    - [MAKE_WEBHOOK_URL]: [os.getenv("MAKE_WEBHOOK_URL")].
    - [chat_completions_create]: the message [response.choices[0].message]
      of the completion, or the exception raised on the way to it.
    - [requests_post]: the [status_code] of the response.
    - [websockets_connect]: the upstream handshake.
    - [openai_ws_send]: a send on the upstream socket.
    - [websocket_call]: accept, send or close on the browser socket.
    - [b64decode]: [base64.b64decode], which is lenient on its input and
      is left to the library.
    - [str_of]: [str()] of a value that is not a [str]. *)
Record env : Type := Env {
  MAKE_WEBHOOK_URL : option string;
  chat_completions_create : list effect -> exn + chat_message;
  requests_post : list effect -> exn + Z;
  websockets_connect : list effect -> exn + unit;
  openai_ws_send : list effect -> exn + unit;
  websocket_call : list effect -> exn + unit;
  b64decode : json -> exn + list byte;
  str_of : json -> string
}.

(* ================================================================= *)
(** ** The monad *)

Inductive outcome (A : Type) : Type :=
| Return (a : A)
| Raise (e : exn).
Arguments Return {A} a.
Arguments Raise {A} e.

Definition M (A : Type) : Type := world -> outcome A * world.

Definition ret {A} (a : A) : M A := fun w => (Return a, w).

Definition raise {A} (e : exn) : M A := fun w => (Raise e, w).

Definition bind {A B} (m : M A) (k : A -> M B) : M B :=
  fun w =>
    match m w with
    | (Return a, w') => k a w'
    | (Raise e, w') => (Raise e, w')
    end.

(** [try: m except Exception as e: h e]. *)
Definition try_except {A} (m : M A) (h : exn -> M A) : M A :=
  fun w =>
    match m w with
    | (Return a, w') => (Return a, w')
    | (Raise e, w') => h e w'
    end.

(** [try: m finally: f]. *)
Definition try_finally {A} (m : M A) (f : M unit) : M A :=
  fun w =>
    match m w with
    | (r, w') =>
        match f w' with
        | (Return _, w'') => (r, w'')
        | (Raise e, w'') => (Raise e, w'')
        end
    end.

Notation "x <- m ;; k" := (bind m (fun x => k))
  (at level 61, m at next level, right associativity).
Notation "m ;;; k" := (bind m (fun _ => k))
  (at level 61, right associativity).

Definition get {A} (f : world -> A) : M A := fun w => (Return (f w), w).

Definition modify (f : world -> world) : M unit := fun w => (Return tt, f w).

Definition set_chat_history (h : list turn) (w : world) : world :=
  World h (session_chat_history w) (current_ai_response w) (trace w).

Definition set_session_chat_history (h : list turn) (w : world) : world :=
  World (chat_history w) h (current_ai_response w) (trace w).

Definition set_current_ai_response (s : string) (w : world) : world :=
  World (chat_history w) (session_chat_history w) s (trace w).

Definition set_trace (t : list effect) (w : world) : world :=
  World (chat_history w) (session_chat_history w) (current_ai_response w) t.

(** Make a call: it is recorded, then the outside answers. *)
Definition call {A} (e : effect) (answer : list effect -> exn + A) : M A :=
  fun w =>
    let w' := set_trace (trace w ++ [e]) w in
    match answer (trace w') with
    | inl x => (Raise x, w')
    | inr a => (Return a, w')
    end.

(** An operation that is recorded and cannot fail. *)
Definition log (e : effect) : M unit := modify (fun w => set_trace (trace w ++ [e]) w).

(** [asyncio.gather(a, b)].  Each coroutine records its calls in a trace
    of its own.  The variables are threaded through [a] then [b]; in
    [ws_voice] the first coroutine assigns none.  The first exception, if
    any, is raised. *)
Definition gather (a b : M unit) : M unit :=
  fun w =>
    match a (set_trace [] w) with
    | (ra, wa) =>
        match b (set_trace [] wa) with
        | (rb, wb) =>
            let w' := set_trace (trace w ++ [Gather (trace wa) (trace wb)]) wb in
            match ra, rb with
            | Raise e, _ => (Raise e, w')
            | _, Raise e => (Raise e, w')
            | _, _ => (Return tt, w')
            end
        end
    end.

(** The result of a library function that returns or raises. *)
Definition lift_result {A} (r : exn + A) : M A :=
  match r with
  | inl e => raise e
  | inr a => ret a
  end.

(** [json.loads(text)], for a text given by what the parser makes of it. *)
Definition json_loads (parsed : exn + json) : M json := lift_result parsed.

(** [v.get(key, default)]: a [dict] method only. *)
Definition py_get (v : json) (key : string) (default : json) : M json :=
  match v with
  | JObj items => ret (dict_get items key default)
  | _ => raise (AttributeError
                  ("'" ++ type_name v ++ "' object has no attribute 'get'")%string)
  end.

(** [v[key] = value] for a string key; the updated value is returned. *)
Definition py_setitem (v : json) (key : string) (value : json) : M json :=
  match v with
  | JObj items => ret (JObj (dict_set items key value))
  | JArr _ => raise (TypeError "list indices must be integers or slices, not str")
  | _ => raise (TypeError
                  ("'" ++ type_name v ++ "' object does not support item assignment")%string)
  end.

(** [s + v] for a [str] [s]. *)
Definition str_concat (s : string) (v : json) : M string :=
  match v with
  | JStr t => ret (s ++ t)%string
  | _ => raise (TypeError
                  ("can only concatenate str (not " ++ dquote ++ type_name v
                   ++ dquote ++ ") to str")%string)
  end.

(* ================================================================= *)
(** ** Constants of the module *)

Definition SYSTEM_INSTRUCTIONS : string :=
  "You are a friendly AI receptionist. " ++
  "Greet the user first and ask politely how you can help. " ++
  "Help users book appointments. " ++
  "Ask politely for any missing details (name, email, phone, service, date, time). " ++
  "Once all details are collected, use the book_appointment tool to finalize the booking.".

(** The initial value of the module-level [chat_history]. *)
Definition initial_chat_history : list turn :=
  [Turn system (JStr SYSTEM_INSTRUCTIONS)].

(** The initial value of [session_chat_history] in [ws_voice]. *)
Definition initial_session_chat_history : list turn :=
  [Turn system
     (JStr (replace SYSTEM_INSTRUCTIONS "Wrap it in triple backticks with json." ""))].

(** The [session.update] message sent right after the connection. *)
Definition session_config : json :=
  JObj [("type", JStr "session.update");
        ("session",
         JObj [("modalities", JArr [JStr "text"; JStr "audio"]);
               ("instructions", JStr SYSTEM_INSTRUCTIONS);
               ("voice", JStr "alloy");
               ("input_audio_format", JStr "pcm16");
               ("output_audio_format", JStr "pcm16");
               ("input_audio_transcription",
                JObj [("model", JStr "whisper-1"); ("language", JStr "en")]);
               ("turn_detection", JObj [("type", JStr "server_vad")])])].

Definition FALLBACK_REPLY : string :=
  "Sorry, I'm having trouble connecting to my brain right now. Please try again later.".

(** The messages sent to the browser. *)
Definition transcript_msg (delta : json) : json :=
  JObj [("type", JStr "transcript"); ("text", delta)].

Definition user_transcript_msg (text : json) : json :=
  JObj [("type", JStr "user_transcript"); ("text", text)].

Definition response_end_msg : json := JObj [("type", JStr "response_end")].

Definition error_msg_json (message : json) : json :=
  JObj [("type", JStr "error"); ("message", message)].

(** The event sent upstream for one audio frame. *)
Definition append_event (audio_b64 : string) : json :=
  JObj [("type", JStr "input_audio_buffer.append"); ("audio", JStr audio_b64)].

(* ================================================================= *)
(** ** The functions of [main.py] *)

Section Program.

Variable E : env.

(** [send_to_make(data)]. *)
Definition send_to_make (data : json) : M bool :=
  match MAKE_WEBHOOK_URL E with
  | None => ret false
  | Some EmptyString => ret false
  | Some url =>
      try_except
        (status_code <- call (Post url data) (requests_post E) ;;
         ret (status_code =? 200)%Z)
        (fun _ => ret false)
  end.

(** [chat_history.append(t)]. *)
Definition chat_history_append (t : turn) : M unit :=
  modify (fun w => set_chat_history (chat_history w ++ [t]) w).

(** [session_chat_history.append(t)]. *)
Definition session_chat_history_append (t : turn) : M unit :=
  modify (fun w => set_session_chat_history (session_chat_history w ++ [t]) w).

(** A value inside an f-string: a [str] is printed as it is, any other
    value as [str()] renders it. *)
Definition fmt (v : json) : string :=
  match v with
  | JStr s => s
  | _ => str_of E v
  end.

(** [process_user_message(user_message)]. *)
Definition process_user_message (user_message : json) : M json :=
  (if truthy user_message
   then chat_history_append (Turn user user_message)
   else ret tt) ;;;
  reply <-
    try_except
      (messages <- get chat_history ;;
       response_message <-
         call (ChatCompletion messages) (chat_completions_create E) ;;
       match tool_calls response_message with
       | arguments :: _ =>
           function_args <- json_loads arguments ;;
           function_args <- py_setitem function_args "action" (JStr "book") ;;
           success <- send_to_make function_args ;;
           if success : bool
           then
             service <- py_get function_args "service" (JStr "your service") ;;
             date <- py_get function_args "date" (JStr "the selected date") ;;
             time <- py_get function_args "time" (JStr "the selected time") ;;
             ret (JStr ("✅ Your appointment for " ++ fmt service ++
                        " on " ++ fmt date ++ " at " ++ fmt time ++
                        " is booked."))
           else ret (JStr "❌ Booking failed. Please try again.")
       | [] => ret (content response_message)
       end)
      (fun _ => ret (JStr FALLBACK_REPLY)) ;;
  chat_history_append (Turn assistant reply) ;;;
  ret reply.

(** [chat_endpoint(request)], for a request body given by what
    [request.json()] makes of it; the result is the content of the JSON
    response. *)
Definition chat_endpoint (body : exn + json) : M json :=
  body <- json_loads body ;;
  message <- py_get body "message" (JStr "") ;;
  reply <- process_user_message message ;;
  ret (JObj [("reply", reply)]).

(** [check_for_booking(history)]. *)
Definition check_for_booking (history : list turn) : M unit :=
  try_except
    (response_message <-
       call (ChatCompletion history) (chat_completions_create E) ;;
     match tool_calls response_message with
     | arguments :: _ =>
         function_args <- json_loads arguments ;;
         function_args <- py_setitem function_args "action" (JStr "book") ;;
         send_to_make function_args ;;;
         ret tt
     | [] => ret tt
     end)
    (fun _ => ret tt).

(** The body of the [while True] loop of [receive_from_client], for the
    message [msg] that [websocket.receive()] returned. *)
Definition client_frame (msg : asgi_message) : M unit :=
  match msg_bytes msg with
  | Some ((_ :: _) as data) =>
      let audio_b64 := b64encode data in
      call (UpstreamSend (append_event audio_b64)) (openai_ws_send E)
  | _ => ret tt
  end.

(** The loop itself: [incoming] are the messages [websocket.receive()]
    returns, [last] is what it raises after them. *)
Fixpoint client_loop (incoming : list asgi_message) (last : exn) : M unit :=
  match incoming with
  | [] => raise last
  | msg :: rest => client_frame msg ;;; client_loop rest last
  end.

(** [receive_from_client()]: both [except] clauses only print. *)
Definition receive_from_client (incoming : list asgi_message) (last : exn)
  : M unit :=
  try_except (client_loop incoming last) (fun _ => ret tt).

(** The body of the [async for] loop of [receive_from_openai], for one
    upstream [message] (given by what [json.loads] makes of it). *)
Definition openai_event (message : exn + json) : M unit :=
  event <- json_loads message ;;
  event_type <- py_get event "type" JNull ;;
  if eq_str event_type "response.audio.delta" then
    delta <- py_get event "delta" (JStr "") ;;
    pcm_bytes <- lift_result (b64decode E delta) ;;
    call (SendBytes pcm_bytes) (websocket_call E)
  else if eq_str event_type "response.audio_transcript.delta" then
    delta <- py_get event "delta" (JStr "") ;;
    current <- get current_ai_response ;;
    current <- str_concat current delta ;;
    modify (set_current_ai_response current) ;;;
    call (SendJson (transcript_msg delta)) (websocket_call E)
  else if eq_str event_type "conversation.item.input_audio_transcription.completed" then
    user_transcript <- py_get event "transcript" (JStr "") ;;
    (if truthy user_transcript
     then
       session_chat_history_append (Turn user user_transcript) ;;;
       history <- get session_chat_history ;;
       check_for_booking history
     else ret tt) ;;;
    call (SendJson (user_transcript_msg user_transcript)) (websocket_call E)
  else if eq_str event_type "response.done" then
    current <- get current_ai_response ;;
    (if negb (current =? "")%string
     then
       session_chat_history_append (Turn assistant (JStr current)) ;;;
       modify (set_current_ai_response "")
     else ret tt) ;;;
    call (SendJson response_end_msg) (websocket_call E)
  else if eq_str event_type "error" then
    error <- py_get event "error" (JObj []) ;;
    error_msg <- py_get error "message" (JStr "Unknown error") ;;
    try_except
      (call (SendJson (error_msg_json error_msg)) (websocket_call E))
      (fun _ => ret tt)
  else ret tt.

(** The [async for message in openai_ws] loop: [incoming] are the messages
    in arrival order; the iteration ends without an exception when the
    connection is closed normally ([last = None]) and raises otherwise. *)
Fixpoint openai_loop (incoming : list (exn + json)) (last : option exn)
  : M unit :=
  match incoming with
  | [] => match last with
          | None => ret tt
          | Some e => raise e
          end
  | message :: rest => openai_event message ;;; openai_loop rest last
  end.

(** [receive_from_openai()]. *)
Definition receive_from_openai (incoming : list (exn + json))
  (last : option exn) : M unit :=
  try_except (openai_loop incoming last)
    (fun e =>
       match exn_class_of e with
       | ConnectionClosed => ret tt
       | _ =>
           try_except
             (call (SendJson (error_msg_json
                                (JStr "An error occurred with the AI service.")))
                (websocket_call E))
             (fun _ => ret tt)
       end).

(** The two [except] clauses of [ws_voice]: one [error] message, sent on a
    best-effort basis, then [websocket.close()]. *)
Definition report_and_close (error_msg : string) : M unit :=
  try_except
    (call (SendJson (error_msg_json (JStr error_msg))) (websocket_call E))
    (fun _ => ret tt) ;;;
  call Close (websocket_call E).

(** [ws_voice(websocket)], for given inputs of the two sockets. *)
Definition ws_voice (client_in : list asgi_message) (client_last : exn)
  (upstream_in : list (exn + json)) (upstream_last : option exn) : M unit :=
  call Accept (websocket_call E) ;;;
  modify (set_session_chat_history initial_session_chat_history) ;;;
  try_except
    (call Connect (websockets_connect E) ;;;
     try_finally
       (call (UpstreamSend session_config) (openai_ws_send E) ;;;
        modify (set_current_ai_response "") ;;;
        gather (receive_from_client client_in client_last)
               (receive_from_openai upstream_in upstream_last))
       (log UpstreamClose))
    (fun e =>
       match exn_class_of e with
       | InvalidStatusCode status_code =>
           report_and_close
             ("OpenAI connection failed with status " ++ str_of_int status_code)
       | _ =>
           report_and_close
             ("Connection error: " ++ exn_type e ++ ": " ++ exn_str e)
       end).

End Program.

(** The world at import time, before any request. *)
Definition initial_world : world := World initial_chat_history [] "" [].

(* ================================================================= *)
(** ** Vocabulary of the statements *)

(** The webhook calls [send_to_make] makes: one [POST] when the URL is
    set, none otherwise. *)
Definition webhook_calls (E : env) (data : json) : list effect :=
  match MAKE_WEBHOOK_URL E with
  | Some (String c u) => [Post (String c u) data]
  | _ => []
  end.

(** The user turn [process_user_message] appends: none for a message
    that Python takes as false. *)
Definition user_turns (user_message : json) : list turn :=
  if truthy user_message then [Turn user user_message] else [].

(** The payloads of the binary frames among [incoming], in order. *)
Definition binary_payloads (incoming : list asgi_message) : list (list byte) :=
  flat_map (fun msg => match msg_bytes msg with
                       | Some data => [data]
                       | None => []
                       end) incoming.

Definition nonempty (data : list byte) : bool :=
  match data with
  | [] => false
  | _ :: _ => true
  end.

(** The upstream event for one frame. *)
Definition forward (data : list byte) : effect :=
  UpstreamSend (append_event (b64encode data)).

(** The webhook calls of one booking check, by the answer of the
    language model: a POST of the arguments of the first tool call, with
    the [action] added, when they parse to a [dict]; none when the call
    raised, when there is no tool call, and when the arguments do not
    parse or are not a [dict]. *)
Definition booking_calls (E : env) (answer : exn + chat_message) : list effect :=
  match answer with
  | inr message =>
      match tool_calls message with
      | inr (JObj items) :: _ =>
          webhook_calls E (JObj (dict_set items "action" (JStr "book")))
      | _ => []
      end
  | inl _ => []
  end.

(** The booking check raised: in the completion call, in [json.loads] or
    in the item assignment. *)
Definition booking_check_raises (answer : exn + chat_message) : bool :=
  match answer with
  | inl _ => true
  | inr message =>
      match tool_calls message with
      | [] => false
      | inl _ :: _ => true
      | inr (JObj _) :: _ => false
      | inr _ :: _ => true
      end
  end.

(** The [type] of an upstream event is the string [kind]. *)
Definition has_type (kind : string) (items : list (string * json)) : bool :=
  eq_str (dict_get items "type" JNull) kind.

Definition USER_TRANSCRIPT_COMPLETED : string :=
  "conversation.item.input_audio_transcription.completed".

(** The world after the first half of a user-transcript-completed event,
    when the client is about to be told: unchanged for an empty
    transcript; otherwise the user turn is in the log and the booking
    check has made its calls. *)
Definition after_user_transcript (E : env) (user_transcript : json) (w : world)
  : world :=
  if truthy user_transcript
  then
    let history := session_chat_history w ++ [Turn user user_transcript] in
    World (chat_history w) history (current_ai_response w)
      (trace w ++ ChatCompletion history
         :: booking_calls E
              (chat_completions_create E (trace w ++ [ChatCompletion history])))
  else w.

(** A delivery to the webhook failed: the POST raised or its status is not
    200, the one status [send_to_make] takes as a success. *)
Definition delivery_failed (answer : exn + Z) : Prop := answer <> inr 200%Z.

(** A computation that keeps the calls already made and may add some. *)
Definition grows {A} (m : M A) : Prop :=
  forall w, exists later, trace (snd (m w)) = trace w ++ later.

(** The calls of the booking check: the completion and the POST. *)
Definition is_extraction_call (e : effect) : bool :=
  match e with
  | ChatCompletion _ => true
  | Post _ _ => true
  | _ => false
  end.

Definition is_completion (e : effect) : bool :=
  match e with
  | ChatCompletion _ => true
  | _ => false
  end.

(** How many completion calls a trace holds. *)
Definition completions (tr : list effect) : nat :=
  List.length (filter is_completion tr).

(** In the trace [tr] of one coroutine the message [m] goes to the
    browser only after a call of the booking check: the call had been
    made and answered when the coroutine went on to send [m]. *)
Definition sent_after_extraction (m : json) (tr : list effect) : Prop :=
  exists before c after,
    tr = before ++ c :: after /\
    is_extraction_call c = true /\
    ~ In (SendJson m) before /\
    In (SendJson m) after.

(** The message [m] is sent, and the coroutine did not wait for a call of
    the booking check before sending it. *)
Definition forwarded_without_waiting (m : json) (tr : list effect) : Prop :=
  In (SendJson m) tr /\ ~ sent_after_extraction m tr.

(** The upstream message is a [response.done] event. *)
Definition is_done (message : exn + json) : bool :=
  match message with
  | inr (JObj items) => has_type "response.done" items
  | _ => false
  end.

(** The text a message adds to the buffer: the [delta] of a
    [response.audio_transcript.delta] event. *)
Definition delta_text (message : exn + json) : string :=
  match message with
  | inr (JObj items) =>
      if has_type "response.audio_transcript.delta" items
      then match dict_get items "delta" (JStr "") with
           | JStr d => d
           | _ => ""
           end
      else ""
  | _ => ""
  end.

(** The concatenation of the delta texts of a run of messages. *)
Definition transcript_of (incoming : list (exn + json)) : string :=
  String.concat "" (map delta_text incoming).

Definition is_assistant (t : turn) : bool :=
  match turn_role t with
  | assistant => true
  | _ => false
  end.

Definition assistant_turns (log : list turn) : list turn := filter is_assistant log.

(** The world when a [response.done] event is about to be reported to the
    browser: a buffer that is not empty has become an assistant turn. *)
Definition after_response_done (w : world) : world :=
  if (current_ai_response w =? "")%string
  then w
  else World (chat_history w)
         (session_chat_history w ++ [Turn assistant (JStr (current_ai_response w))])
         "" (trace w).

(** The text of the [error] message for an exception that reaches the
    [except] clauses of [ws_voice]. *)
Definition connection_error_msg (e : exn) : string :=
  match exn_class_of e with
  | InvalidStatusCode status_code =>
      "OpenAI connection failed with status " ++ str_of_int status_code
  | _ => "Connection error: " ++ exn_type e ++ ": " ++ exn_str e
  end.

(** The position of a character in the base64 alphabet, counted from
    [i]; 0 for a character that is not in it. *)
Fixpoint index_from (c : ascii) (s : string) (i : N) : N :=
  match s with
  | EmptyString => 0%N
  | String d rest => if Ascii.eqb c d then i else index_from c rest (i + 1)%N
  end.

Definition b64_index (c : ascii) : N := index_from c b64_alphabet 0.

Definition byte_of_N (n : N) : byte :=
  match Byte.of_N n with
  | Some b => b
  | None => Byte.x00
  end.

(** Reading back a text written by [b64encode], four characters at a
    time. *)
Fixpoint b64_unpack (s : string) : list byte :=
  match s with
  | String c1 (String c2 (String c3 (String c4 rest))) =>
      let n := (b64_index c1 * 262144 + b64_index c2 * 4096
                + b64_index c3 * 64 + b64_index c4)%N in
      if Ascii.eqb c3 "="
      then [byte_of_N (n / 65536)]
      else if Ascii.eqb c4 "="
           then [byte_of_N (n / 65536); byte_of_N ((n / 256) mod 256)]
           else byte_of_N (n / 65536) :: byte_of_N ((n / 256) mod 256)
                  :: byte_of_N (n mod 256) :: b64_unpack rest
  | _ => []
  end.

(** A computation that ends without an exception, in every world. *)
Definition never_raises {A} (m : M A) : Prop :=
  forall w, exists a, fst (m w) = Return a.

(** A computation that leaves the component [f] of the world as it is. *)
Definition keeps {A B} (f : world -> B) (m : M A) : Prop :=
  forall w, f (snd (m w)) = f w.

(** A computation that only adds at the end of the list [f] of the world. *)
Definition appends {A B} (f : world -> list B) (m : M A) : Prop :=
  forall w, exists more, f (snd (m w)) = f w ++ more.

Definition is_post (e : effect) : bool :=
  match e with
  | Post _ _ => true
  | _ => false
  end.

(** How many POSTs a trace holds. *)
Definition posts (tr : list effect) : nat := List.length (filter is_post tr).

(** The requests to [/chat] one after the other: [process_user_message]
    on each message in turn, on the same module-level history; the
    replies are returned in order. *)
Fixpoint chat_requests (E : env) (messages : list json) : M (list json) :=
  match messages with
  | [] => ret []
  | message :: rest =>
      reply <- process_user_message E message ;;
      replies <- chat_requests E rest ;;
      ret (reply :: replies)
  end.

(** The turns that a run of requests leaves in the history: for each
    message its user turn, if any, then the assistant turn of its reply. *)
Fixpoint dialogue (messages replies : list json) : list turn :=
  match messages, replies with
  | message :: messages', reply :: replies' =>
      user_turns message ++ Turn assistant reply :: dialogue messages' replies'
  | _, _ => []
  end.

(** The text that confirms a booking, for the arguments [args] of the
    tool call. *)
Definition confirmation (E : env) (args : list (string * json)) : string :=
  "✅ Your appointment for "
  ++ fmt E (dict_get args "service" (JStr "your service"))
  ++ " on " ++ fmt E (dict_get args "date" (JStr "the selected date"))
  ++ " at " ++ fmt E (dict_get args "time" (JStr "the selected time"))
  ++ " is booked.".

Definition BOOKING_FAILED : string := "❌ Booking failed. Please try again.".

(** The reply of [process_user_message], by the answer of the language
    model; [w1] is the world in which a webhook call is made. *)
Definition reply_of (E : env) (answer : exn + chat_message) (w1 : world) : json :=
  match answer with
  | inl _ => JStr FALLBACK_REPLY
  | inr message =>
      match tool_calls message with
      | [] => content message
      | inr (JObj args) :: _ =>
          let record := dict_set args "action" (JStr "book") in
          match fst (send_to_make E (JObj record) w1) with
          | Return true => JStr (confirmation E record)
          | _ => JStr BOOKING_FAILED
          end
      | _ => JStr FALLBACK_REPLY
      end
  end.

(** The event types [receive_from_openai] acts on. *)
Definition known_types : list string :=
  ["response.audio.delta"; "response.audio_transcript.delta";
   USER_TRANSCRIPT_COMPLETED; "response.done"; "error"].

Definition is_str (v : json) : bool :=
  match v with
  | JStr _ => true
  | _ => false
  end.

Definition is_dict (v : json) : bool :=
  match v with
  | JObj _ => true
  | _ => false
  end.

(** An upstream message that parses but has not the shape its handler
    takes for granted: it is not a [dict], or it is a transcript delta
    whose [delta] is not a [str], or an error event whose [error] is not
    a [dict]. *)
Definition malformed (event : json) : bool :=
  match event with
  | JObj items =>
      (has_type "response.audio_transcript.delta" items
       && negb (is_str (dict_get items "delta" (JStr ""))))
      || (has_type "error" items
          && negb (is_dict (dict_get items "error" (JObj []))))
  | _ => true
  end.

Definition GENERIC_ERROR : json :=
  error_msg_json (JStr "An error occurred with the AI service.").

(** The variables of a session that has just been configured, the
    module-level history being [history], and no call made yet. *)
Definition fresh_session (history : list turn) : world :=
  World history initial_session_chat_history "" [].

(* ================================================================= *)
(** ** Environments and events used in examples *)

(** Sockets on which every operation succeeds. *)
Definition ok : list effect -> exn + unit := fun _ => inr tt.

Definition RuntimeError (msg : string) : exn := Exn OtherException "RuntimeError" msg.

(** The webhook is configured and answers with [status]; the language
    model answers with [message]; no socket fails. *)
Definition env_with (message : chat_message) (status : Z) : env :=
  Env (Some "https://hook.make.example/booking")
      (fun _ => inr message)
      (fun _ => inr status)
      ok ok ok
      (fun _ => inr [])
      (fun _ => "").

(** The language model raises. *)
Definition env_llm_down : env :=
  Env (Some "https://hook.make.example/booking")
      (fun _ => inl (Exn OtherException "APITimeoutError" "Request timed out."))
      (fun _ => inr 200%Z)
      ok ok ok
      (fun _ => inr [])
      (fun _ => "").

(** The upstream handshake is rejected with [status]. *)
Definition env_rejected (status : Z) : env :=
  Env (Some "https://hook.make.example/booking")
      (fun _ => inr (ChatMessage (JStr "Hello!") []))
      (fun _ => inr 200%Z)
      (fun _ => inl (Exn (InvalidStatusCode status) "InvalidStatusCode"
                       "server rejected WebSocket connection"))
      ok ok
      (fun _ => inr [])
      (fun _ => "").

Definition plain_reply : chat_message := ChatMessage (JStr "How can I help?") [].

Definition jane_args : json :=
  JObj [("name", JStr "Jane"); ("email", JStr "jane@x.com");
        ("phone", JStr "555-1234"); ("service", JStr "haircut");
        ("date", JStr "2025-01-10"); ("time", JStr "15:00")].

Definition booking_reply : chat_message := ChatMessage JNull [inr jane_args].

Definition haircut_event : list (string * json) :=
  [("type", JStr USER_TRANSCRIPT_COMPLETED);
   ("transcript", JStr "I'd like a haircut tomorrow at 3pm")].

(** A session that has just been configured. *)
Definition session_world : world :=
  World initial_chat_history initial_session_chat_history "" [].

Definition error_event : list (string * json) :=
  [("type", JStr "error"); ("error", JObj [("message", JStr "rate limited")])].

Definition sure_event : list (string * json) :=
  [("type", JStr "response.audio_transcript.delta"); ("delta", JStr "Sure")].

Definition hello_event : list (string * json) :=
  [("type", JStr "response.audio_transcript.delta"); ("delta", JStr "Hello")].

Definition bang_event : list (string * json) :=
  [("type", JStr "response.audio_transcript.delta"); ("delta", JStr "!")].

Definition done_event : list (string * json) := [("type", JStr "response.done")].

Definition empty_delta_event : list (string * json) :=
  [("type", JStr "response.audio_transcript.delta"); ("delta", JStr "")].

Definition two_tool_calls : chat_message :=
  ChatMessage JNull
    [inr (JObj [("name", JStr "Jane"); ("action", JStr "cancel")]);
     inr (JObj [("name", JStr "Joe")])].

Definition list_args_reply : chat_message :=
  ChatMessage JNull [inr (JArr [JStr "Jane"])].

Definition no_date_reply : chat_message :=
  ChatMessage JNull [inr (JObj [("service", JStr "haircut"); ("time", JStr "15:00")])].

Definition env_no_webhook : env :=
  Env None (fun _ => inr booking_reply) (fun _ => inr 200%Z) ok ok ok
      (fun _ => inr []) (fun _ => "").

Definition bad_delta_event : list (string * json) :=
  [("type", JStr "response.audio_transcript.delta"); ("delta", JInt 7)].

Definition env_config_fails : env :=
  Env None (fun _ => inr plain_reply) (fun _ => inr 200%Z) ok
      (fun _ => inl (Exn ConnectionClosed "ConnectionClosedError"
                       "no close frame received or sent"))
      ok (fun _ => inr []) (fun _ => "").

Definition env_client_gone : env :=
  Env None (fun _ => inr plain_reply) (fun _ => inr 200%Z) ok ok
      (fun _ => inl (Exn WebSocketDisconnect "WebSocketDisconnect" "1006"))
      (fun _ => inr []) (fun _ => "").

(* ================================================================= *)
(** ** The library functions on examples *)

Example b64encode_Man : b64encode (bytes_of "Man") = "TWFu".
Proof. reflexivity. Qed.

Example b64encode_Ma : b64encode (bytes_of "Ma") = "TWE=".
Proof. reflexivity. Qed.

Example b64encode_M : b64encode (bytes_of "M") = "TQ==".
Proof. reflexivity. Qed.

Example b64encode_hello : b64encode (bytes_of "hello!!") = "aGVsbG8hIQ==".
Proof. reflexivity. Qed.

Example replace_ex1 : replace "aXXbXXXc" "XX" "-" = "a-b-Xc".
Proof. reflexivity. Qed.

Example replace_ex2 : replace "abc" "" "-" = "-a-b-c-".
Proof. reflexivity. Qed.

(* ================================================================= *)
(** ** The system turn of a session *)

Lemma occurs_false_prefix old s : occurs old s = false -> prefix old s = false.
Proof.
  destruct s; simpl; intros H; apply orb_false_iff in H; tauto.
Qed.

Lemma replace_from_absent old new s :
  occurs old s = false -> replace_from old new 0 s = s.
Proof.
  induction s as [|c rest IH]; intros H; [reflexivity|].
  cbn [replace_from].
  rewrite (occurs_false_prefix _ _ H).
  f_equal. apply IH.
  simpl in H. apply orb_false_iff in H. tauto.
Qed.

Lemma replace_absent s old new :
  occurs old s = false -> replace s old new = s.
Proof.
  intros H. destruct old as [|c old'].
  - destruct s; discriminate H.
  - unfold replace. now apply replace_from_absent.
Qed.

(** C9: the sentinel phrase does not occur in [SYSTEM_INSTRUCTIONS], so
    the replacement made at session start changes nothing: the session
    history starts with one system turn whose content is
    [SYSTEM_INSTRUCTIONS] itself, as the module-level history does. *)
Theorem session_history_starts_with_system_instructions :
  occurs "Wrap it in triple backticks with json." SYSTEM_INSTRUCTIONS = false /\
  replace SYSTEM_INSTRUCTIONS "Wrap it in triple backticks with json." ""
    = SYSTEM_INSTRUCTIONS /\
  initial_session_chat_history = [Turn system (JStr SYSTEM_INSTRUCTIONS)].
Proof.
  assert (H : occurs "Wrap it in triple backticks with json." SYSTEM_INSTRUCTIONS
              = false) by (vm_compute; reflexivity).
  split; [exact H|].
  split; [now apply replace_absent|].
  unfold initial_session_chat_history.
  now rewrite (replace_absent _ _ "" H).
Qed.

(* ================================================================= *)
(** ** Basic facts about the monad *)

Lemma call_inr {A} (e : effect) (answer : list effect -> exn + A) w a :
  answer (trace w ++ [e]) = inr a ->
  call e answer w = (Return a, set_trace (trace w ++ [e]) w).
Proof. unfold call; simpl; intros ->; reflexivity. Qed.

Lemma call_inl {A} (e : effect) (answer : list effect -> exn + A) w x :
  answer (trace w ++ [e]) = inl x ->
  call e answer w = (Raise x, set_trace (trace w ++ [e]) w).
Proof. unfold call; simpl; intros ->; reflexivity. Qed.

Lemma call_world {A} (e : effect) (answer : list effect -> exn + A) w :
  snd (call e answer w) = set_trace (trace w ++ [e]) w.
Proof. unfold call; simpl; destruct (answer _); reflexivity. Qed.

(* ================================================================= *)
(** ** The webhook dispatch *)

Lemma send_to_make_world E data w :
  snd (send_to_make E data w) = set_trace (trace w ++ webhook_calls E data) w.
Proof.
  unfold send_to_make, webhook_calls.
  destruct (MAKE_WEBHOOK_URL E) as [[|c u]|]; simpl.
  - destruct w; unfold set_trace; simpl; now rewrite app_nil_r.
  - unfold try_except, bind, call; simpl.
    destruct (requests_post E _); reflexivity.
  - destruct w; unfold set_trace; simpl; now rewrite app_nil_r.
Qed.

Lemma send_to_make_returns E data w :
  exists success, fst (send_to_make E data w) = Return success.
Proof.
  unfold send_to_make.
  destruct (MAKE_WEBHOOK_URL E) as [[|c u]|]; simpl; eauto.
  unfold try_except, bind, call; simpl.
  destruct (requests_post E _); simpl; eauto.
Qed.

(** C5, as the code has it: [send_to_make] reports success exactly when
    the webhook URL is set and the POST returns status 200; it makes that
    POST once when the URL is set and makes no call otherwise. *)
Theorem send_to_make_success_iff_status_200 (E : env) (data : json) (w : world) :
  (fst (send_to_make E data w) = Return true <->
   exists url, MAKE_WEBHOOK_URL E = Some url /\ url <> "" /\
               requests_post E (trace w ++ [Post url data]) = inr 200%Z) /\
  trace (snd (send_to_make E data w)) = trace w ++ webhook_calls E data /\
  List.length (webhook_calls E data) <= 1.
Proof.
  split; [|split].
  - unfold send_to_make.
    destruct (MAKE_WEBHOOK_URL E) as [[|c u]|]; simpl.
    + split; [discriminate|]. intros (url & Hu & Hne & _). congruence.
    + unfold try_except, bind, call, ret; simpl.
      destruct (requests_post E _) as [x|status] eqn:Hpost; simpl.
      * split; [discriminate|]. intros (url & Hu & _ & Hr).
        injection Hu as <-. congruence.
      * split.
        -- intros H. injection H as H. apply Z.eqb_eq in H. subst status.
           exists (String c u). repeat split; [discriminate|assumption].
        -- intros (url & Hu & _ & Hr). injection Hu as <-.
           rewrite Hpost in Hr. injection Hr as ->. reflexivity.
    + split; [discriminate|]. intros (url & Hu & _). discriminate.
  - rewrite send_to_make_world. reflexivity.
  - unfold webhook_calls.
    destruct (MAKE_WEBHOOK_URL E) as [[|c u]|]; simpl; lia.
Qed.

(** C5 as stated fails: a POST answered with 204, a 2xx status, is not
    reported as a success. *)
Lemma send_to_make_204_is_not_success :
  ~ (fst (send_to_make (env_with plain_reply 204) jane_args initial_world)
       = Return true
     <-> (200 <= 204 < 300)%Z).
Proof.
  intros [_ H]. assert (H' : (200 <= 204 < 300)%Z) by lia.
  apply H in H'. vm_compute in H'. discriminate.
Qed.

Lemma send_to_make_run E data w :
  exists success,
    send_to_make E data w
    = (Return success, set_trace (trace w ++ webhook_calls E data) w).
Proof.
  destruct (send_to_make_returns E data w) as [success Hs].
  exists success. rewrite <- send_to_make_world, <- Hs.
  now destruct (send_to_make E data w).
Qed.

(* ================================================================= *)
(** ** The plain-text message processor *)

Lemma truthy_str s : truthy (JStr s) = true <-> s <> "".
Proof.
  simpl. rewrite negb_true_iff. split.
  - intros H ->. discriminate.
  - intros H. destruct s; [congruence|reflexivity].
Qed.

Lemma process_user_message_run (E : env) (user_message : json) (w : world) :
  exists reply calls,
    process_user_message E user_message w
    = (Return reply,
       World (chat_history w ++ user_turns user_message ++ [Turn assistant reply])
             (session_chat_history w) (current_ai_response w)
             (trace w ++ calls)) /\
    (forall e,
        chat_completions_create E
          (trace w ++ [ChatCompletion (chat_history w ++ user_turns user_message)])
        = inl e ->
        reply = JStr FALLBACK_REPLY).
Proof.
  destruct w as [ch sh cur tr].
  unfold process_user_message, user_turns, chat_history_append.
  destruct (truthy user_message);
    unfold bind, try_except, get, call, modify, ret; simpl;
    rewrite ?app_nil_r;
    (destruct (chat_completions_create E _) as [x|message] eqn:Hllm; simpl;
     [ do 2 eexists; rewrite <- ?app_assoc; split; [reflexivity|auto] | ]);
    (destruct (tool_calls message) as [|[x|function_args] others]; simpl;
     [ do 2 eexists; rewrite <- ?app_assoc; split; [reflexivity|discriminate]
     | do 2 eexists; rewrite <- ?app_assoc; split; [reflexivity|discriminate]
     | ]);
    (destruct function_args; simpl;
     try (do 2 eexists; rewrite <- ?app_assoc; split; [reflexivity|discriminate]));
    match goal with
    | |- context [send_to_make E ?d ?w0] =>
        destruct (send_to_make_run E d w0) as [success Hrun]; rewrite Hrun
    end;
    destruct success; simpl;
    do 2 eexists; rewrite <- ?app_assoc; (split; [reflexivity|discriminate]).
Qed.

(** C10: every call of [process_user_message] returns and appends exactly
    one assistant turn, its reply, to the module-level [chat_history];
    the reply is the fixed apology when the completion call raises; a
    user turn goes before it exactly when the message string is not
    empty. *)
Theorem process_user_message_appends_one_assistant_turn
  (E : env) (s : string) (w : world) :
  exists reply,
    fst (process_user_message E (JStr s) w) = Return reply /\
    chat_history (snd (process_user_message E (JStr s) w))
    = chat_history w
      ++ (if (s =? "")%string then [] else [Turn user (JStr s)])
      ++ [Turn assistant reply] /\
    (forall e,
        chat_completions_create E
          (trace w ++ [ChatCompletion
                         (chat_history w
                          ++ (if (s =? "")%string then [] else [Turn user (JStr s)]))])
        = inl e ->
        reply = JStr FALLBACK_REPLY).
Proof.
  destruct (process_user_message_run E (JStr s) w) as (reply & calls & Hr & Hf).
  exists reply. rewrite Hr. unfold user_turns in Hf |- *. simpl in Hf |- *.
  destruct (s =? "")%string; simpl in Hf |- *; auto.
Qed.

Example process_user_message_plain :
  process_user_message (env_with plain_reply 200) (JStr "Hi") initial_world
  = (Return (JStr "How can I help?"),
     World (initial_chat_history
            ++ [Turn user (JStr "Hi"); Turn assistant (JStr "How can I help?")])
           [] ""
           [ChatCompletion (initial_chat_history ++ [Turn user (JStr "Hi")])]).
Proof. reflexivity. Qed.

Example process_user_message_llm_down :
  process_user_message env_llm_down (JStr "") initial_world
  = (Return (JStr FALLBACK_REPLY),
     World (initial_chat_history ++ [Turn assistant (JStr FALLBACK_REPLY)])
           [] ""
           [ChatCompletion initial_chat_history]).
Proof. reflexivity. Qed.

Example process_user_message_booked :
  fst (process_user_message (env_with booking_reply 200) (JStr "Book it")
         initial_world)
  = Return (JStr "✅ Your appointment for haircut on 2025-01-10 at 15:00 is booked.").
Proof. reflexivity. Qed.

Example process_user_message_booking_failed :
  fst (process_user_message (env_with booking_reply 500) (JStr "Book it")
         initial_world)
  = Return (JStr "❌ Booking failed. Please try again.").
Proof. reflexivity. Qed.

(* ================================================================= *)
(** ** The audio relay loop *)

Lemma set_trace_same w : set_trace (trace w) w = w.
Proof. now destruct w. Qed.

Lemma client_frame_run E msg w :
  (forall t, openai_ws_send E t = inr tt) ->
  client_frame E msg w
  = (Return tt,
     set_trace (trace w ++ map forward (filter nonempty (binary_payloads [msg]))) w).
Proof.
  intros Hok. unfold client_frame, binary_payloads, forward.
  destruct msg as [[|b data]|text|code];
    cbn [msg_bytes flat_map filter nonempty map app];
    rewrite ?app_nil_r, ?set_trace_same; try reflexivity.
  now apply call_inr.
Qed.

Lemma binary_payloads_cons msg rest :
  binary_payloads (msg :: rest) = binary_payloads [msg] ++ binary_payloads rest.
Proof. unfold binary_payloads. simpl. now rewrite app_nil_r. Qed.

Lemma client_loop_run E incoming last :
  (forall t, openai_ws_send E t = inr tt) ->
  forall w,
    client_loop E incoming last w
    = (Raise last,
       set_trace
         (trace w ++ map forward (filter nonempty (binary_payloads incoming))) w).
Proof.
  intros Hok. induction incoming as [|msg rest IH]; intros w.
  - simpl. unfold raise. now rewrite app_nil_r, set_trace_same.
  - cbn [client_loop]. unfold bind.
    rewrite (client_frame_run _ _ _ Hok), IH.
    rewrite (binary_payloads_cons msg rest), filter_app, map_app.
    cbn [trace set_trace]. now rewrite app_assoc.
Qed.

(** C3, as the code has it: while the upstream socket accepts what is
    sent, the loop sends upstream one [input_audio_buffer.append] event,
    carrying the base64 encoding of the payload, for every binary frame
    that is not empty, in arrival order and nothing else; text frames and
    empty binary frames produce no event and no error, and the loop ends
    without raising. *)
Theorem receive_from_client_forwards_nonempty_frames
  (E : env) (incoming : list asgi_message) (last : exn) (w : world) :
  (forall t, openai_ws_send E t = inr tt) ->
  receive_from_client E incoming last w
  = (Return tt,
     set_trace
       (trace w ++ map forward (filter nonempty (binary_payloads incoming))) w).
Proof.
  intros Hok. unfold receive_from_client, try_except.
  now rewrite (client_loop_run _ _ _ Hok).
Qed.

Lemma receive_from_client_forwards_nonempty_frames_witness :
  receive_from_client (env_with plain_reply 200)
    [ReceiveBytes (bytes_of "Man"); ReceiveText "hi"; ReceiveBytes [];
     ReceiveBytes (bytes_of "M"); Disconnect 1000]
    (RuntimeError "Cannot call receive once a disconnect message has been received.")
    initial_world
  = (Return tt,
     set_trace [UpstreamSend (append_event "TWFu"); UpstreamSend (append_event "TQ==")]
       initial_world).
Proof.
  apply (receive_from_client_forwards_nonempty_frames
           (env_with plain_reply 200)
           [ReceiveBytes (bytes_of "Man"); ReceiveText "hi"; ReceiveBytes [];
            ReceiveBytes (bytes_of "M"); Disconnect 1000]
           (RuntimeError "Cannot call receive once a disconnect message has been received.")
           initial_world).
  intros t. reflexivity.
Defined.

(** Without the assumption on the upstream socket: the loop still ends
    without raising, and what it sent is an initial part of the same
    list, cut at the first send that failed. *)
Lemma client_loop_sends_prefix E incoming last :
  forall w, exists n,
    trace (snd (client_loop E incoming last w))
    = trace w
      ++ firstn n (map forward (filter nonempty (binary_payloads incoming))).
Proof.
  induction incoming as [|msg rest IH]; intros w.
  - exists 0. simpl. now rewrite app_nil_r.
  - cbn [client_loop]. unfold bind, client_frame.
    rewrite (binary_payloads_cons msg rest), filter_app, map_app.
    destruct msg as [[|b data]|text|code];
      cbn [msg_bytes binary_payloads flat_map filter nonempty map app ret];
      try apply IH.
    unfold call. cbn [trace set_trace].
    destruct (openai_ws_send E _) as [x|[]].
    + exists 1. reflexivity.
    + destruct (IH (set_trace (trace w ++ [forward (b :: data)]) w)) as [n Hn].
      exists (S n). fold (forward (b :: data)). rewrite Hn.
      cbn [trace set_trace firstn]. now rewrite <- app_assoc.
Qed.

Lemma receive_from_client_never_raises E incoming last w :
  fst (receive_from_client E incoming last w) = Return tt.
Proof.
  unfold receive_from_client, try_except.
  now destruct (client_loop E incoming last w) as [[[]|e] w1].
Qed.

(** C3 as stated fails: an empty binary frame is a binary frame, and no
    event is sent upstream for it. *)
Lemma empty_binary_frame_is_dropped :
  trace (snd (receive_from_client (env_with plain_reply 200)
                [ReceiveBytes []] (RuntimeError "disconnected") initial_world))
  <> trace initial_world ++ map forward (binary_payloads [ReceiveBytes []]).
Proof. vm_compute. discriminate. Qed.

(* ================================================================= *)
(** ** The booking check *)

Lemma check_for_booking_run E history w :
  check_for_booking E history w
  = (Return tt,
     set_trace
       (trace w ++ ChatCompletion history
          :: booking_calls E
               (chat_completions_create E (trace w ++ [ChatCompletion history])))
       w).
Proof.
  unfold check_for_booking, booking_calls, try_except, bind, call, ret.
  cbn [trace set_trace].
  destruct (chat_completions_create E _) as [x|message]; [reflexivity|].
  destruct (tool_calls message) as [|[x|function_args] others];
    cbn [json_loads lift_result raise ret]; try reflexivity.
  destruct function_args; cbn [py_setitem raise ret]; try reflexivity.
  match goal with
  | |- context [send_to_make E ?d ?w0] =>
      destruct (send_to_make_run E d w0) as [success Hrun]; rewrite Hrun
  end.
  cbn [trace set_trace]. now rewrite <- app_assoc.
Qed.

Lemma booking_calls_when_raises E answer :
  booking_check_raises answer = true -> booking_calls E answer = [].
Proof.
  unfold booking_check_raises, booking_calls.
  destruct answer as [x|message]; [reflexivity|].
  destruct (tool_calls message) as [|[x|[]] others];
    reflexivity || discriminate.
Qed.

Lemma booking_calls_at_most_one E answer :
  List.length (booking_calls E answer) <= 1.
Proof.
  unfold booking_calls, webhook_calls.
  destruct answer as [x|message]; simpl; [lia|].
  destruct (tool_calls message) as [|[x|[]] others]; simpl; try lia.
  destruct (MAKE_WEBHOOK_URL E) as [[|c u]|]; simpl; lia.
Qed.

(* ================================================================= *)
(** ** One upstream event *)

Lemma eq_str_true v s : eq_str v s = true -> v = JStr s.
Proof.
  destruct v; try discriminate. simpl. intros H.
  apply String.eqb_eq in H. now subst.
Qed.

(** Decide the [if]/[elif] chain of [openai_event] once the type is known. *)
Ltac known_type H :=
  unfold has_type in H; apply eq_str_true in H;
  unfold openai_event, json_loads, lift_result, py_get;
  unfold bind at 1; unfold ret at 1;
  unfold bind at 1; unfold ret at 1;
  rewrite H; cbn [eq_str String.eqb Ascii.eqb Bool.eqb andb];
  unfold USER_TRANSCRIPT_COMPLETED;
  cbn [eq_str String.eqb Ascii.eqb Bool.eqb andb].

Lemma user_transcript_event_run E items w :
  has_type USER_TRANSCRIPT_COMPLETED items = true ->
  let user_transcript := dict_get items "transcript" (JStr "") in
  openai_event E (inr (JObj items)) w
  = call (SendJson (user_transcript_msg user_transcript)) (websocket_call E)
      (after_user_transcript E user_transcript w).
Proof.
  intros Htype. known_type Htype.
  unfold after_user_transcript.
  unfold bind at 1. unfold ret at 1.
  unfold bind at 1.
  destruct (truthy (dict_get items "transcript" (JStr ""))).
  - unfold bind, session_chat_history_append, modify, get.
    rewrite check_for_booking_run. reflexivity.
  - reflexivity.
Qed.

Lemma truthy_JStr_nonempty t : t <> "" -> truthy (JStr t) = true.
Proof. apply truthy_str. Qed.

(** C4: for a user-transcript-completed event whose transcript is the
    string [t]: when [t] is not empty, the user turn is appended to the
    session log and the booking check is called on the log so extended
    (its completion call and its webhook calls are in the trace); when
    [t] is empty the log is unchanged and no such call is made; in both
    cases the last call is the [user_transcript] message with the whole
    transcript, the other variables are unchanged, and the event is
    handled without an exception if the browser accepts the message. *)
Theorem user_transcript_completed_event
  (E : env) (items : list (string * json)) (t : string) (w : world) :
  has_type USER_TRANSCRIPT_COMPLETED items = true ->
  dict_get items "transcript" (JStr "") = JStr t ->
  let w' := snd (openai_event E (inr (JObj items)) w) in
  let history := session_chat_history w ++ [Turn user (JStr t)] in
  (t <> "" ->
   session_chat_history w' = history /\
   trace w'
   = trace w
     ++ [ChatCompletion history]
     ++ booking_calls E
          (chat_completions_create E (trace w ++ [ChatCompletion history]))
     ++ [SendJson (user_transcript_msg (JStr t))]) /\
  (t = "" ->
   session_chat_history w' = session_chat_history w /\
   trace w' = trace w ++ [SendJson (user_transcript_msg (JStr t))]) /\
  chat_history w' = chat_history w /\
  current_ai_response w' = current_ai_response w /\
  (websocket_call E (trace w') = inr tt ->
   fst (openai_event E (inr (JObj items)) w) = Return tt).
Proof.
  intros Htype Ht w' history. subst w'.
  rewrite (user_transcript_event_run E items w Htype), Ht.
  rewrite call_world. unfold after_user_transcript.
  split; [|split; [|split; [|split]]].
  - intros Hne. rewrite (truthy_JStr_nonempty t Hne). cbn [trace set_trace].
    fold history. split; [reflexivity|]. now rewrite <- !app_assoc.
  - intros ->. split; reflexivity.
  - destruct (truthy (JStr t)); reflexivity.
  - destruct (truthy (JStr t)); reflexivity.
  - intros Hok. unfold call. cbn [trace set_trace] in Hok |- *.
    now rewrite Hok.
Qed.

Lemma user_transcript_completed_event_witness :
  let E := env_with booking_reply 200 in
  let t := "I'd like a haircut tomorrow at 3pm" in
  let w := session_world in
  let w' := snd (openai_event E (inr (JObj haircut_event)) w) in
  let history := session_chat_history w ++ [Turn user (JStr t)] in
  (t <> "" ->
   session_chat_history w' = history /\
   trace w'
   = trace w
     ++ [ChatCompletion history]
     ++ booking_calls E
          (chat_completions_create E (trace w ++ [ChatCompletion history]))
     ++ [SendJson (user_transcript_msg (JStr t))]) /\
  (t = "" ->
   session_chat_history w' = session_chat_history w /\
   trace w' = trace w ++ [SendJson (user_transcript_msg (JStr t))]) /\
  chat_history w' = chat_history w /\
  current_ai_response w' = current_ai_response w /\
  (websocket_call E (trace w') = inr tt ->
   fst (openai_event E (inr (JObj haircut_event)) w) = Return tt).
Proof.
  exact (user_transcript_completed_event (env_with booking_reply 200)
           haircut_event "I'd like a haircut tomorrow at 3pm" session_world
           eq_refl eq_refl).
Defined.

Example haircut_event_trace :
  trace (snd (openai_event (env_with booking_reply 200)
                (inr (JObj haircut_event)) session_world))
  = [ChatCompletion
       [Turn system (JStr SYSTEM_INSTRUCTIONS);
        Turn user (JStr "I'd like a haircut tomorrow at 3pm")];
     Post "https://hook.make.example/booking"
       (JObj [("name", JStr "Jane"); ("email", JStr "jane@x.com");
              ("phone", JStr "555-1234"); ("service", JStr "haircut");
              ("date", JStr "2025-01-10"); ("time", JStr "15:00");
              ("action", JStr "book")]);
     SendJson (user_transcript_msg (JStr "I'd like a haircut tomorrow at 3pm"))].
Proof. vm_compute. reflexivity. Qed.

(* ================================================================= *)
(** ** Failures of the booking check and of the webhook *)

Lemma openai_loop_cons E message rest last w w1 :
  openai_event E message w = (Return tt, w1) ->
  openai_loop E (message :: rest) last w = openai_loop E rest last w1.
Proof.
  intros H. cbn [openai_loop]. unfold bind. now rewrite H.
Qed.

(** C6: when the booking check raises for a completed utterance (in the
    completion call, in [json.loads] or in the item assignment), the
    exception stays inside [check_for_booking]: the event makes the
    completion call and sends the [user_transcript] message and nothing
    else (no POST, no [error] message), the user turn is in the log, the
    event is handled without an exception and the loop goes on with the
    next events. *)
Theorem extraction_failure_is_swallowed
  (E : env) (items : list (string * json)) (t : string)
  (rest : list (exn + json)) (last : option exn) (w : world) :
  has_type USER_TRANSCRIPT_COMPLETED items = true ->
  dict_get items "transcript" (JStr "") = JStr t ->
  t <> "" ->
  let history := session_chat_history w ++ [Turn user (JStr t)] in
  let calls := [ChatCompletion history; SendJson (user_transcript_msg (JStr t))] in
  booking_check_raises
    (chat_completions_create E (trace w ++ [ChatCompletion history])) = true ->
  websocket_call E (trace w ++ calls) = inr tt ->
  let w1 := World (chat_history w) history (current_ai_response w)
              (trace w ++ calls) in
  openai_event E (inr (JObj items)) w = (Return tt, w1) /\
  openai_loop E (inr (JObj items) :: rest) last w = openai_loop E rest last w1.
Proof.
  intros Htype Ht Hne history calls Hraises Hok w1.
  assert (Hev : openai_event E (inr (JObj items)) w = (Return tt, w1)).
  { rewrite (user_transcript_event_run E items w Htype), Ht.
    unfold after_user_transcript.
    rewrite (truthy_JStr_nonempty t Hne). fold history.
    rewrite (booking_calls_when_raises E _ Hraises).
    unfold call. cbn [trace set_trace].
    replace ((trace w ++ [ChatCompletion history])
             ++ [SendJson (user_transcript_msg (JStr t))])
      with (trace w ++ calls) by (unfold calls; now rewrite <- app_assoc).
    now rewrite Hok. }
  split; [exact Hev|]. now apply openai_loop_cons.
Qed.

Lemma extraction_failure_is_swallowed_witness :
  let E := env_llm_down in
  let t := "I'd like a haircut tomorrow at 3pm" in
  let rest := [inr (JObj error_event)] in
  let w := session_world in
  let history := session_chat_history w ++ [Turn user (JStr t)] in
  let calls := [ChatCompletion history; SendJson (user_transcript_msg (JStr t))] in
  let w1 := World (chat_history w) history (current_ai_response w)
              (trace w ++ calls) in
  openai_event E (inr (JObj haircut_event)) w = (Return tt, w1) /\
  openai_loop E (inr (JObj haircut_event) :: rest) None w
  = openai_loop E rest None w1.
Proof.
  refine (extraction_failure_is_swallowed env_llm_down haircut_event
            "I'd like a haircut tomorrow at 3pm" [inr (JObj error_event)] None
            session_world eq_refl eq_refl _ eq_refl eq_refl).
  discriminate.
Defined.

(** A completed utterance for which the language model calls the tool
    with a [dict] of arguments, the webhook URL being set: whatever the
    POST returns or raises, the event makes the completion call, one POST
    and the [user_transcript] message. *)
Lemma tool_call_event_run
  (E : env) (items args : list (string * json)) (t url : string)
  (message : chat_message) (others : list (exn + json))
  (rest : list (exn + json)) (last : option exn) (w : world) :
  has_type USER_TRANSCRIPT_COMPLETED items = true ->
  dict_get items "transcript" (JStr "") = JStr t ->
  t <> "" ->
  let history := session_chat_history w ++ [Turn user (JStr t)] in
  chat_completions_create E (trace w ++ [ChatCompletion history]) = inr message ->
  tool_calls message = inr (JObj args) :: others ->
  MAKE_WEBHOOK_URL E = Some url ->
  url <> "" ->
  let calls := [ChatCompletion history;
                Post url (JObj (dict_set args "action" (JStr "book")));
                SendJson (user_transcript_msg (JStr t))] in
  websocket_call E (trace w ++ calls) = inr tt ->
  let w1 := World (chat_history w) history (current_ai_response w)
              (trace w ++ calls) in
  openai_event E (inr (JObj items)) w = (Return tt, w1) /\
  openai_loop E (inr (JObj items) :: rest) last w = openai_loop E rest last w1.
Proof.
  intros Htype Ht Hne history Hllm Htool Hurl Hu calls Hok w1.
  assert (Hev : openai_event E (inr (JObj items)) w = (Return tt, w1)).
  { rewrite (user_transcript_event_run E items w Htype), Ht.
    unfold after_user_transcript.
    rewrite (truthy_JStr_nonempty t Hne). fold history.
    rewrite Hllm. unfold booking_calls, webhook_calls. rewrite Htool, Hurl.
    destruct url as [|c u]; [congruence|].
    unfold call. cbn [trace set_trace app].
    replace ((trace w
              ++ [ChatCompletion history;
                  Post (String c u) (JObj (dict_set args "action" (JStr "book")))])
             ++ [SendJson (user_transcript_msg (JStr t))])
      with (trace w ++ calls) by (unfold calls; now rewrite <- app_assoc).
    now rewrite Hok. }
  split; [exact Hev|]. now apply openai_loop_cons.
Qed.

(** C7: when the POST of a booking fails (it raises, or returns a status
    that is not a success), the event of the completed utterance makes
    the completion call, that one POST and the [user_transcript] message
    and nothing else: the delivery is not repeated and no [error]
    message is sent; the variables of the session are what a successful
    delivery leaves, the event is handled without an exception and the
    loop goes on with the next events. *)
Theorem webhook_failure_is_not_visible
  (E : env) (items args : list (string * json)) (t url : string)
  (message : chat_message) (others : list (exn + json))
  (rest : list (exn + json)) (last : option exn) (w : world) :
  has_type USER_TRANSCRIPT_COMPLETED items = true ->
  dict_get items "transcript" (JStr "") = JStr t ->
  t <> "" ->
  let history := session_chat_history w ++ [Turn user (JStr t)] in
  chat_completions_create E (trace w ++ [ChatCompletion history]) = inr message ->
  tool_calls message = inr (JObj args) :: others ->
  MAKE_WEBHOOK_URL E = Some url ->
  url <> "" ->
  let data := JObj (dict_set args "action" (JStr "book")) in
  delivery_failed
    (requests_post E (trace w ++ [ChatCompletion history; Post url data])) ->
  let calls := [ChatCompletion history; Post url data;
                SendJson (user_transcript_msg (JStr t))] in
  websocket_call E (trace w ++ calls) = inr tt ->
  let w1 := World (chat_history w) history (current_ai_response w)
              (trace w ++ calls) in
  openai_event E (inr (JObj items)) w = (Return tt, w1) /\
  openai_loop E (inr (JObj items) :: rest) last w = openai_loop E rest last w1.
Proof.
  intros Htype Ht Hne history Hllm Htool Hurl Hu data _ calls Hok w1.
  exact (tool_call_event_run E items args t url message others rest last w
           Htype Ht Hne Hllm Htool Hurl Hu Hok).
Qed.

Lemma webhook_failure_is_not_visible_witness :
  let E := env_with booking_reply 503 in
  let t := "I'd like a haircut tomorrow at 3pm" in
  let rest := [inr (JObj error_event)] in
  let w := session_world in
  let history := session_chat_history w ++ [Turn user (JStr t)] in
  let calls := [ChatCompletion history;
                Post "https://hook.make.example/booking"
                  (JObj (dict_set [("name", JStr "Jane"); ("email", JStr "jane@x.com");
                                   ("phone", JStr "555-1234"); ("service", JStr "haircut");
                                   ("date", JStr "2025-01-10"); ("time", JStr "15:00")]
                           "action" (JStr "book")));
                SendJson (user_transcript_msg (JStr t))] in
  let w1 := World (chat_history w) history (current_ai_response w)
              (trace w ++ calls) in
  openai_event E (inr (JObj haircut_event)) w = (Return tt, w1) /\
  openai_loop E (inr (JObj haircut_event) :: rest) None w
  = openai_loop E rest None w1.
Proof.
  refine (webhook_failure_is_not_visible (env_with booking_reply 503)
            haircut_event _ "I'd like a haircut tomorrow at 3pm"
            "https://hook.make.example/booking" booking_reply []
            [inr (JObj error_event)] None session_world
            eq_refl eq_refl _ eq_refl eq_refl eq_refl _ _ eq_refl);
    discriminate.
Defined.

(* ================================================================= *)
(** ** Calls are only ever added to the trace *)

Lemma grows_ret {A} (a : A) : grows (ret a).
Proof. intros w. exists []. simpl. now rewrite app_nil_r. Qed.

Lemma grows_raise {A} (e : exn) : grows (@raise A e).
Proof. intros w. exists []. simpl. now rewrite app_nil_r. Qed.

Lemma grows_get {A} (f : world -> A) : grows (get f).
Proof. intros w. exists []. simpl. now rewrite app_nil_r. Qed.

Lemma grows_modify (f : world -> world) :
  (forall w, trace (f w) = trace w) -> grows (modify f).
Proof. intros H w. exists []. simpl. now rewrite H, app_nil_r. Qed.

Lemma grows_call {A} (e : effect) (answer : list effect -> exn + A) :
  grows (call e answer).
Proof. intros w. exists [e]. now rewrite call_world. Qed.

Lemma grows_bind {A B} (m : M A) (k : A -> M B) :
  grows m -> (forall a, grows (k a)) -> grows (bind m k).
Proof.
  intros Hm Hk w. unfold bind.
  destruct (Hm w) as [l1 H1]. destruct (m w) as [[a|e] w1]; simpl in H1.
  - destruct (Hk a w1) as [l2 H2]. exists (l1 ++ l2).
    now rewrite H2, H1, app_assoc.
  - exists l1. exact H1.
Qed.

Lemma grows_try_except {A} (m : M A) (h : exn -> M A) :
  grows m -> (forall e, grows (h e)) -> grows (try_except m h).
Proof.
  intros Hm Hh w. unfold try_except.
  destruct (Hm w) as [l1 H1]. destruct (m w) as [[a|e] w1]; simpl in H1.
  - exists l1. exact H1.
  - destruct (Hh e w1) as [l2 H2]. exists (l1 ++ l2).
    now rewrite H2, H1, app_assoc.
Qed.

Lemma grows_lift_result {A} (r : exn + A) : grows (lift_result r).
Proof. destruct r; [apply grows_raise|apply grows_ret]. Qed.

Lemma grows_py_get v key default : grows (py_get v key default).
Proof. destruct v; simpl; apply grows_ret || apply grows_raise. Qed.

Lemma grows_py_setitem v key value : grows (py_setitem v key value).
Proof. destruct v; simpl; apply grows_ret || apply grows_raise. Qed.

Lemma grows_str_concat s v : grows (str_concat s v).
Proof. destruct v; simpl; apply grows_ret || apply grows_raise. Qed.

Create HintDb grows.
#[local] Hint Resolve grows_ret grows_raise grows_get grows_call grows_bind
  grows_try_except grows_lift_result grows_py_get grows_py_setitem
  grows_str_concat : grows.

(** Break a computation into its parts, down to the calls. *)
Ltac grows_step :=
  first
    [ apply grows_bind; [|intros ?]
    | apply grows_try_except; [|intros ?]
    | apply grows_modify; intros ?; reflexivity
    | solve [auto with grows]
    | match goal with
      | |- grows (if ?c then _ else _) => destruct c
      | |- grows (match ?x with _ => _ end) => destruct x
      end ].

Lemma grows_send_to_make E data : grows (send_to_make E data).
Proof.
  intros w. exists (webhook_calls E data). now rewrite send_to_make_world.
Qed.

Lemma grows_check_for_booking E history : grows (check_for_booking E history).
Proof.
  intros w. rewrite check_for_booking_run. eexists. reflexivity.
Qed.

#[local] Hint Resolve grows_send_to_make grows_check_for_booking : grows.

Lemma grows_openai_event E message : grows (openai_event E message).
Proof.
  unfold openai_event, json_loads, session_chat_history_append.
  repeat grows_step.
Qed.

#[local] Hint Resolve grows_openai_event : grows.

Lemma grows_openai_loop E incoming last : grows (openai_loop E incoming last).
Proof.
  induction incoming as [|message rest IH]; cbn [openai_loop].
  - destruct last; auto with grows.
  - apply grows_bind; auto with grows.
Qed.

Lemma grows_receive_from_openai E incoming last :
  grows (receive_from_openai E incoming last).
Proof.
  unfold receive_from_openai.
  apply grows_try_except; [apply grows_openai_loop|].
  intros e. repeat grows_step.
Qed.

(* ================================================================= *)
(** ** The booking check runs inside the fan-out loop *)

Lemma booking_calls_are_extraction_calls E answer :
  Forall (fun e => is_extraction_call e = true) (booking_calls E answer).
Proof.
  unfold booking_calls, webhook_calls.
  destruct answer as [x|message]; [constructor|].
  destruct (tool_calls message) as [|[x|[]] others]; try constructor.
  destruct (MAKE_WEBHOOK_URL E) as [[|c u]|]; repeat constructor.
Qed.

Lemma booking_calls_no_completion E answer :
  filter is_completion (booking_calls E answer) = [].
Proof.
  unfold booking_calls, webhook_calls.
  destruct answer as [x|message]; [reflexivity|].
  destruct (tool_calls message) as [|[x|[]] others]; try reflexivity.
  destruct (MAKE_WEBHOOK_URL E) as [[|c u]|]; reflexivity.
Qed.

(** C1, as the code has it: for a completed user utterance [t] the
    booking check is run at most once (once when [t] is not empty, not at
    all when it is), and it is run inside the loop: its calls, the
    completion and the POST it may lead to, are made before the
    [user_transcript] message of the same event is sent, and every call
    made for a later upstream event comes after them. *)
Theorem extraction_is_inline_and_at_most_once
  (E : env) (items : list (string * json)) (t : string)
  (rest : list (exn + json)) (last : option exn) (w : world) :
  has_type USER_TRANSCRIPT_COMPLETED items = true ->
  dict_get items "transcript" (JStr "") = JStr t ->
  exists extraction later,
    trace (snd (openai_event E (inr (JObj items)) w))
    = trace w ++ extraction ++ [SendJson (user_transcript_msg (JStr t))] /\
    completions extraction = (if (t =? "")%string then 0 else 1) /\
    Forall (fun e => is_extraction_call e = true) extraction /\
    trace (snd (openai_loop E (inr (JObj items) :: rest) last w))
    = trace w ++ extraction ++ [SendJson (user_transcript_msg (JStr t))] ++ later.
Proof.
  intros Htype Ht.
  assert (Hloop : exists later,
             trace (snd (openai_loop E (inr (JObj items) :: rest) last w))
             = trace (snd (openai_event E (inr (JObj items)) w)) ++ later).
  { cbn [openai_loop]. unfold bind.
    destruct (openai_event E (inr (JObj items)) w) as [[[]|e] w1].
    - apply grows_openai_loop.
    - exists []. simpl. now rewrite app_nil_r. }
  destruct Hloop as [later Hlater].
  rewrite (user_transcript_event_run E items w Htype), Ht, call_world in Hlater.
  rewrite (user_transcript_event_run E items w Htype), Ht, call_world.
  unfold after_user_transcript in *. cbn [truthy] in *.
  destruct (t =? "")%string; cbn [negb trace set_trace] in *.
  - exists [], later. cbn [app]. repeat split; [constructor|].
    now rewrite Hlater, <- app_assoc.
  - eexists (_ :: _), later. cbn [trace set_trace].
    split; [now rewrite <- app_assoc|].
    split; [unfold completions; cbn [filter is_completion];
            now rewrite booking_calls_no_completion|].
    split; [constructor; [reflexivity|apply booking_calls_are_extraction_calls]|].
    rewrite Hlater. cbn [trace set_trace]. now rewrite <- !app_assoc.
Qed.

Lemma extraction_is_inline_and_at_most_once_witness :
  exists extraction later,
    trace (snd (openai_event (env_with booking_reply 200)
                  (inr (JObj haircut_event)) session_world))
    = trace session_world ++ extraction
      ++ [SendJson (user_transcript_msg
                      (JStr "I'd like a haircut tomorrow at 3pm"))] /\
    completions extraction
    = (if ("I'd like a haircut tomorrow at 3pm" =? "")%string then 0 else 1) /\
    Forall (fun e => is_extraction_call e = true) extraction /\
    trace (snd (openai_loop (env_with booking_reply 200)
                  (inr (JObj haircut_event) :: [inr (JObj error_event)]) None
                  session_world))
    = trace session_world ++ extraction
      ++ [SendJson (user_transcript_msg
                      (JStr "I'd like a haircut tomorrow at 3pm"))] ++ later.
Proof.
  exact (extraction_is_inline_and_at_most_once (env_with booking_reply 200)
           haircut_event "I'd like a haircut tomorrow at 3pm"
           [inr (JObj error_event)] None session_world eq_refl eq_refl).
Defined.

(** C1 as stated fails: the next upstream event, a transcript delta, is
    forwarded only after the completion call and the POST of the booking
    check of the utterance before it. *)
Lemma next_event_waits_for_extraction :
  trace (snd (receive_from_openai (env_with booking_reply 200)
                [inr (JObj haircut_event); inr (JObj sure_event)] None
                session_world))
  = [ChatCompletion
       [Turn system (JStr SYSTEM_INSTRUCTIONS);
        Turn user (JStr "I'd like a haircut tomorrow at 3pm")];
     Post "https://hook.make.example/booking"
       (JObj [("name", JStr "Jane"); ("email", JStr "jane@x.com");
              ("phone", JStr "555-1234"); ("service", JStr "haircut");
              ("date", JStr "2025-01-10"); ("time", JStr "15:00");
              ("action", JStr "book")]);
     SendJson (user_transcript_msg (JStr "I'd like a haircut tomorrow at 3pm"));
     SendJson (transcript_msg (JStr "Sure"))] /\
  ~ forwarded_without_waiting (transcript_msg (JStr "Sure"))
      (trace (snd (receive_from_openai (env_with booking_reply 200)
                     [inr (JObj haircut_event); inr (JObj sure_event)] None
                     session_world))).
Proof.
  assert (Htrace :
            trace (snd (receive_from_openai (env_with booking_reply 200)
                          [inr (JObj haircut_event); inr (JObj sure_event)] None
                          session_world))
            = [ChatCompletion
                 [Turn system (JStr SYSTEM_INSTRUCTIONS);
                  Turn user (JStr "I'd like a haircut tomorrow at 3pm")];
               Post "https://hook.make.example/booking"
                 (JObj [("name", JStr "Jane"); ("email", JStr "jane@x.com");
                        ("phone", JStr "555-1234"); ("service", JStr "haircut");
                        ("date", JStr "2025-01-10"); ("time", JStr "15:00");
                        ("action", JStr "book")]);
               SendJson (user_transcript_msg
                           (JStr "I'd like a haircut tomorrow at 3pm"));
               SendJson (transcript_msg (JStr "Sure"))])
    by (vm_compute; reflexivity).
  split; [exact Htrace|].
  rewrite Htrace. intros [_ Hnot]. apply Hnot.
  eexists [], _, _. split; [reflexivity|].
  split; [reflexivity|].
  split; [intros []|].
  simpl. auto.
Qed.

(* ================================================================= *)
(** ** The assistant transcript between two boundaries *)

Lemma response_done_event_run E items w :
  has_type "response.done" items = true ->
  openai_event E (inr (JObj items)) w
  = call (SendJson response_end_msg) (websocket_call E) (after_response_done w).
Proof.
  intros Htype. known_type Htype.
  unfold after_response_done, bind, get, session_chat_history_append, modify, ret.
  destruct (current_ai_response w =? "")%string; reflexivity.
Qed.

Lemma after_response_done_buffer w : current_ai_response (after_response_done w) = "".
Proof.
  unfold after_response_done.
  destruct (current_ai_response w =? "")%string eqn:H; [|reflexivity].
  now apply String.eqb_eq.
Qed.

Lemma string_app_empty_r s : (s ++ "")%string = s.
Proof. induction s; simpl; congruence. Qed.

Lemma string_app_assoc a b c : ((a ++ b) ++ c)%string = (a ++ b ++ c)%string.
Proof. induction a; simpl; congruence. Qed.

(** What an event other than [response.done] does to the variables when
    it is handled without an exception: the buffer gains the delta text,
    the log gains user turns only. *)
Lemma openai_event_vars E message w w' :
  is_done message = false ->
  openai_event E message w = (Return tt, w') ->
  chat_history w' = chat_history w /\
  current_ai_response w'
  = (current_ai_response w ++ delta_text message)%string /\
  exists users,
    session_chat_history w' = session_chat_history w ++ users /\
    assistant_turns users = [].
Proof.
  intros Hdone.
  destruct message as [e|event]; [discriminate|].
  destruct event; try discriminate.
  destruct (has_type USER_TRANSCRIPT_COMPLETED items) eqn:H3.
  { rewrite (user_transcript_event_run E items w H3). intros Hrun.
    apply (f_equal snd) in Hrun. rewrite call_world in Hrun.
    cbn [snd] in Hrun. subst w'.
    unfold delta_text, has_type. apply eq_str_true in H3. rewrite H3.
    cbn [eq_str String.eqb Ascii.eqb Bool.eqb].
    unfold after_user_transcript. rewrite string_app_empty_r.
    destruct (truthy (dict_get items "transcript" (JStr ""))); cbn.
    - repeat split. eexists. split; reflexivity.
    - repeat split. exists []. now rewrite app_nil_r. }
  unfold is_done, has_type in Hdone. unfold delta_text.
  unfold has_type in H3 |- *.
  unfold openai_event, json_loads, lift_result, py_get.
  unfold bind at 1; unfold ret at 1.
  unfold bind at 1; unfold ret at 1.
  destruct (eq_str (dict_get items "type" JNull) "response.audio.delta") eqn:H1.
  { apply eq_str_true in H1. rewrite H1. cbn [eq_str String.eqb Ascii.eqb Bool.eqb].
    unfold bind, ret. destruct (b64decode E _); [discriminate|].
    cbn [lift_result ret]. intros Hrun.
    apply (f_equal snd) in Hrun. rewrite call_world in Hrun.
    cbn [snd] in Hrun. subst w'.
    rewrite string_app_empty_r.
    repeat split. exists []. now rewrite app_nil_r. }
  destruct (eq_str (dict_get items "type" JNull) "response.audio_transcript.delta")
    eqn:H2.
  { unfold bind, ret, get.
    destruct (dict_get items "delta" (JStr "")); try discriminate.
    cbn [str_concat ret modify]. intros Hrun.
    apply (f_equal snd) in Hrun. rewrite call_world in Hrun.
    cbn [snd] in Hrun. subst w'.
    repeat split. exists []. now rewrite app_nil_r. }
  unfold USER_TRANSCRIPT_COMPLETED in H3. rewrite H3, Hdone.
  destruct (eq_str (dict_get items "type" JNull) "error") eqn:H5.
  { unfold bind, ret, try_except.
    destruct (dict_get items "error" (JObj [])); try discriminate.
    cbn [py_get ret]. unfold call. cbn [trace set_trace].
    destruct (websocket_call E _); intros Hrun;
      apply (f_equal snd) in Hrun; cbn in Hrun; subst w';
      cbn; rewrite string_app_empty_r;
      repeat split; exists []; now rewrite app_nil_r. }
  intros Hrun. apply (f_equal snd) in Hrun. cbn in Hrun. subst w'.
  rewrite string_app_empty_r.
  repeat split. exists []. now rewrite app_nil_r.
Qed.

Lemma openai_loop_returns_cons E message rest w :
  fst (openai_loop E (message :: rest) None w) = Return tt ->
  exists w1,
    openai_event E message w = (Return tt, w1) /\
    openai_loop E (message :: rest) None w = openai_loop E rest None w1.
Proof.
  cbn [openai_loop]. unfold bind.
  destruct (openai_event E message w) as [[[]|e] w1]; [eauto|discriminate].
Qed.

(** Two runs of messages, one after the other. *)
Lemma openai_loop_app E incoming more last :
  forall w,
    fst (openai_loop E incoming None w) = Return tt ->
    openai_loop E (incoming ++ more) last w
    = openai_loop E more last (snd (openai_loop E incoming None w)).
Proof.
  induction incoming as [|message rest IH]; intros w Hret; [reflexivity|].
  destruct (openai_loop_returns_cons E message rest w Hret) as (w1 & Hev & Hloop).
  rewrite Hloop in Hret |- *.
  cbn [app]. rewrite (openai_loop_cons E message (rest ++ more) last w w1 Hev).
  now apply IH.
Qed.

Lemma transcript_of_cons message rest :
  transcript_of (message :: rest)
  = (delta_text message ++ transcript_of rest)%string.
Proof.
  unfold transcript_of. cbn [map String.concat].
  destruct (map delta_text rest) as [|d ds]; [|reflexivity].
  simpl. now rewrite string_app_empty_r.
Qed.

Lemma assistant_turns_app a b :
  assistant_turns (a ++ b) = assistant_turns a ++ assistant_turns b.
Proof. apply filter_app. Qed.

(** Between two boundaries: the buffer collects the delta texts, the log
    gains no assistant turn. *)
Lemma openai_loop_between_boundaries E incoming :
  forall w,
    forallb (fun message => negb (is_done message)) incoming = true ->
    fst (openai_loop E incoming None w) = Return tt ->
    let w1 := snd (openai_loop E incoming None w) in
    current_ai_response w1
    = (current_ai_response w ++ transcript_of incoming)%string /\
    assistant_turns (session_chat_history w1)
    = assistant_turns (session_chat_history w).
Proof.
  induction incoming as [|message rest IH]; intros w Hnone Hret.
  - cbn. now rewrite string_app_empty_r.
  - cbn [forallb] in Hnone. apply andb_true_iff in Hnone as [Hm Hrest].
    apply negb_true_iff in Hm.
    destruct (openai_loop_returns_cons E message rest w Hret) as (w1 & Hev & Hloop).
    rewrite Hloop in Hret |- *.
    destruct (openai_event_vars E message w w1 Hm Hev)
      as (_ & Hbuf & users & Hlog & Husers).
    destruct (IH w1 Hrest Hret) as [IHbuf IHlog].
    cbv zeta. rewrite IHbuf, IHlog, Hbuf, Hlog, transcript_of_cons.
    rewrite assistant_turns_app, Husers, app_nil_r.
    split; [apply string_app_assoc|reflexivity].
Qed.

(** C2, as the code has it: take a run of upstream events that holds no
    [response.done], starts with an empty buffer and is handled without
    an exception.  It appends no assistant turn to the log.  The
    [response.done] that follows appends exactly one assistant turn,
    whose content is the concatenation of the delta texts of the run,
    when that concatenation is not empty, and appends nothing when it is
    empty; the buffer is empty after it. *)
Theorem assistant_turn_flushed_at_boundary
  (E : env) (incoming : list (exn + json)) (done_items : list (string * json))
  (w : world) :
  current_ai_response w = "" ->
  forallb (fun message => negb (is_done message)) incoming = true ->
  fst (openai_loop E incoming None w) = Return tt ->
  has_type "response.done" done_items = true ->
  let w1 := snd (openai_loop E incoming None w) in
  let w2 := snd (openai_loop E (incoming ++ [inr (JObj done_items)]) None w) in
  let text := transcript_of incoming in
  assistant_turns (session_chat_history w1)
  = assistant_turns (session_chat_history w) /\
  session_chat_history w2
  = session_chat_history w1
    ++ (if (text =? "")%string then [] else [Turn assistant (JStr text)]) /\
  current_ai_response w2 = "".
Proof.
  intros Hempty Hnone Hret Hdone w1 w2 text.
  destruct (openai_loop_between_boundaries E incoming w Hnone Hret)
    as [Hbuf Hlog].
  fold w1 in Hbuf, Hlog. rewrite Hempty in Hbuf. cbn [String.append] in Hbuf.
  fold text in Hbuf.
  assert (Hw2 : w2 = snd (call (SendJson response_end_msg) (websocket_call E)
                            (after_response_done w1))).
  { subst w2. rewrite (openai_loop_app E incoming _ None w Hret). fold w1.
    cbn [openai_loop]. unfold bind.
    rewrite (response_done_event_run E done_items w1 Hdone).
    now destruct (call (SendJson response_end_msg) (websocket_call E) _)
      as [[[]|e] w3]. }
  rewrite Hw2, call_world.
  split; [exact Hlog|].
  split.
  - unfold after_response_done. rewrite Hbuf.
    destruct (text =? "")%string; cbn; [now rewrite app_nil_r|reflexivity].
  - cbn. apply after_response_done_buffer.
Qed.

Lemma assistant_turn_flushed_at_boundary_witness :
  let E := env_with plain_reply 200 in
  let incoming := [inr (JObj hello_event); inr (JObj bang_event)] in
  let w := session_world in
  let w1 := snd (openai_loop E incoming None w) in
  let w2 := snd (openai_loop E (incoming ++ [inr (JObj done_event)]) None w) in
  let text := transcript_of incoming in
  assistant_turns (session_chat_history w1)
  = assistant_turns (session_chat_history w) /\
  session_chat_history w2
  = session_chat_history w1
    ++ (if (text =? "")%string then [] else [Turn assistant (JStr text)]) /\
  current_ai_response w2 = "".
Proof.
  exact (assistant_turn_flushed_at_boundary (env_with plain_reply 200)
           [inr (JObj hello_event); inr (JObj bang_event)] done_event
           session_world eq_refl eq_refl eq_refl eq_refl).
Defined.

(** The scenario of the specification: two deltas, then the boundary. *)
Example hello_scenario :
  receive_from_openai (env_with plain_reply 200)
    [inr (JObj hello_event); inr (JObj bang_event); inr (JObj done_event)] None
    session_world
  = (Return tt,
     World initial_chat_history
       (initial_session_chat_history ++ [Turn assistant (JStr "Hello!")])
       ""
       [SendJson (transcript_msg (JStr "Hello"));
        SendJson (transcript_msg (JStr "!"));
        SendJson response_end_msg]).
Proof. vm_compute. reflexivity. Qed.

(** C2 as stated fails: when the concatenation of the delta texts is the
    empty string, because no delta came between the two boundaries or
    because the only delta carried an empty text, the boundary appends no
    assistant turn, not one turn with the empty string. *)
Lemma empty_response_appends_no_turn :
  let E := env_with plain_reply 200 in
  let after incoming :=
    session_chat_history
      (snd (openai_loop E (incoming ++ [inr (JObj done_event)]) None
              session_world)) in
  let before incoming :=
    session_chat_history (snd (openai_loop E incoming None session_world)) in
  (after [] = before [] /\
   after [] <> before [] ++ [Turn assistant (JStr (transcript_of []))]) /\
  (after [inr (JObj empty_delta_event)] = before [inr (JObj empty_delta_event)] /\
   after [inr (JObj empty_delta_event)]
   <> before [inr (JObj empty_delta_event)]
      ++ [Turn assistant (JStr (transcript_of [inr (JObj empty_delta_event)]))]).
Proof.
  repeat split; try reflexivity; vm_compute; discriminate.
Qed.

(* ================================================================= *)
(** ** A rejected handshake *)

Lemma report_and_close_trace E error_msg w :
  trace (snd (report_and_close E error_msg w))
  = trace w ++ [SendJson (error_msg_json (JStr error_msg)); Close].
Proof.
  unfold report_and_close, bind, try_except, call, ret. cbn [trace set_trace].
  repeat match goal with
         | |- context [match websocket_call E ?t with _ => _ end] =>
             destruct (websocket_call E t)
         end;
    cbn; now rewrite <- app_assoc.
Qed.

(** C8: when the browser socket is accepted and the upstream connection
    attempt raises, [ws_voice] makes four calls: accept, connect, one
    [error] message to the browser and the close of the browser socket;
    for a handshake rejected with a status, the message carries that
    status.  Nothing is sent upstream and neither loop is started: the
    trace holds no [UpstreamSend] and no [Gather]. *)
Theorem rejected_handshake_reports_once_and_closes
  (E : env) (client_in : list asgi_message) (client_last : exn)
  (upstream_in : list (exn + json)) (upstream_last : option exn)
  (e : exn) (w : world) :
  websocket_call E (trace w ++ [Accept]) = inr tt ->
  websockets_connect E (trace w ++ [Accept; Connect]) = inl e ->
  trace (snd (ws_voice E client_in client_last upstream_in upstream_last w))
  = trace w ++ [Accept; Connect;
                SendJson (error_msg_json (JStr (connection_error_msg e))); Close] /\
  (forall status_code,
      exn_class_of e = InvalidStatusCode status_code ->
      connection_error_msg e
      = ("OpenAI connection failed with status " ++ str_of_int status_code)%string).
Proof.
  intros Haccept Hconnect. split.
  - unfold ws_voice.
    unfold bind at 1. rewrite (call_inr Accept _ w tt Haccept).
    unfold bind at 1. unfold modify at 1.
    unfold try_except. unfold bind at 1.
    rewrite (call_inl Connect (websockets_connect E) _ e)
      by (cbn [trace set_trace set_session_chat_history];
          now rewrite <- app_assoc).
    unfold connection_error_msg.
    destruct (exn_class_of e); rewrite report_and_close_trace;
      cbn [trace set_trace set_session_chat_history];
      now rewrite <- !app_assoc.
  - intros status_code Hclass. unfold connection_error_msg. now rewrite Hclass.
Qed.

Lemma rejected_handshake_reports_once_and_closes_witness :
  trace (snd (ws_voice (env_rejected 401)
                [ReceiveBytes (bytes_of "Man")] (RuntimeError "disconnected")
                [inr (JObj hello_event)] None initial_world))
  = [Accept; Connect;
     SendJson (error_msg_json (JStr "OpenAI connection failed with status 401"));
     Close] /\
  (forall status_code,
      exn_class_of (Exn (InvalidStatusCode 401) "InvalidStatusCode"
                      "server rejected WebSocket connection")
      = InvalidStatusCode status_code ->
      connection_error_msg (Exn (InvalidStatusCode 401) "InvalidStatusCode"
                              "server rejected WebSocket connection")
      = ("OpenAI connection failed with status " ++ str_of_int status_code)%string).
Proof.
  exact (rejected_handshake_reports_once_and_closes (env_rejected 401)
           [ReceiveBytes (bytes_of "Man")] (RuntimeError "disconnected")
           [inr (JObj hello_event)] None
           (Exn (InvalidStatusCode 401) "InvalidStatusCode"
              "server rejected WebSocket connection")
           initial_world eq_refl eq_refl).
Defined.

(** A whole session: the handshake succeeds, three audio chunks arrive
    from the browser, the upstream sends two transcript deltas and a
    boundary. *)
Example voice_session :
  trace (snd (ws_voice (env_with plain_reply 200)
                [ReceiveBytes (bytes_of "Man"); ReceiveBytes (bytes_of "Ma");
                 ReceiveBytes (bytes_of "M")]
                (RuntimeError "disconnected")
                [inr (JObj hello_event); inr (JObj bang_event);
                 inr (JObj done_event)] None initial_world))
  = [Accept; Connect; UpstreamSend session_config;
     Gather
       [UpstreamSend (append_event "TWFu"); UpstreamSend (append_event "TWE=");
        UpstreamSend (append_event "TQ==")]
       [SendJson (transcript_msg (JStr "Hello"));
        SendJson (transcript_msg (JStr "!"));
        SendJson response_end_msg];
     UpstreamClose].
Proof. vm_compute. reflexivity. Qed.


(* ================================================================= *)
(** ** Base64 of an audio frame *)

Lemma list_ind3 {A} (P : list A -> Prop) :
  P [] -> (forall a, P [a]) -> (forall a b, P [a; b]) ->
  (forall a b c rest, P rest -> P (a :: b :: c :: rest)) ->
  forall l, P l.
Proof.
  intros H0 H1 H2 H3. fix IH 1.
  intros [|a [|b [|c rest]]];
    [exact H0 | apply H1 | apply H2 | apply H3; apply IH].
Qed.

(** Every three bytes of a frame, and the one or two bytes that may be
    left, give four characters: the text has [4 * ceil(n / 3)]
    characters for a frame of [n] bytes. *)
Theorem b64encode_length (data : list byte) :
  String.length (b64encode data) = 4 * ((List.length data + 2) / 3).
Proof.
  induction data as [|a|a b|a b c rest IH] using list_ind3; try reflexivity.
  cbn [b64encode String.length List.length]. rewrite IH.
  replace (S (S (S (List.length rest))) + 2) with (1 * 3 + (List.length rest + 2))
    by lia.
  rewrite Nat.div_add_l by lia. lia.
Qed.

Lemma lor_mul_pow2_add (x y k : N) :
  (y < 2 ^ k -> N.lor (x * 2 ^ k) y = x * 2 ^ k + y)%N.
Proof.
  intros Hy.
  assert (Hland : N.land (x * 2 ^ k) y = 0%N).
  { apply N.bits_inj. intros i. rewrite N.land_spec, N.bits_0.
    destruct (N.lt_ge_cases i k) as [Hlt|Hge].
    - now rewrite N.mul_pow2_bits_low.
    - rewrite <- (N.mod_small y (2 ^ k)) by assumption.
      rewrite N.mod_pow2_bits_high by assumption. apply andb_false_r. }
  now rewrite N.add_nocarry_lxor, N.lxor_lor.
Qed.

Lemma byte_lt_256 (a : byte) : (Byte.to_N a < 256)%N.
Proof. pose proof (Byte.to_N_bounded a). lia. Qed.

(** The three bytes of a group as one 24-bit number. *)
Lemma group_value (a b c : byte) :
  N.lor (N.lor (N.shiftl (Byte.to_N a) 16) (N.shiftl (Byte.to_N b) 8))
        (Byte.to_N c)
  = (Byte.to_N a * 65536 + Byte.to_N b * 256 + Byte.to_N c)%N.
Proof.
  pose proof (byte_lt_256 a). pose proof (byte_lt_256 b).
  pose proof (byte_lt_256 c).
  rewrite !N.shiftl_mul_pow2.
  rewrite (lor_mul_pow2_add (Byte.to_N a) (Byte.to_N b * 2 ^ 8) 16)
    by (change (2 ^ 8)%N with 256%N; change (2 ^ 16)%N with 65536%N; lia).
  change (2 ^ 16)%N with (2 ^ 8 * 2 ^ 8)%N.
  replace (Byte.to_N a * (2 ^ 8 * 2 ^ 8) + Byte.to_N b * 2 ^ 8)%N
    with ((Byte.to_N a * 2 ^ 8 + Byte.to_N b) * 2 ^ 8)%N by lia.
  rewrite lor_mul_pow2_add by (change (2 ^ 8)%N with 256%N; lia).
  change (2 ^ 8)%N with 256%N. lia.
Qed.

Lemma b64_char_spec (n : N) :
  b64_index (b64_char n) = (n mod 64)%N /\ Ascii.eqb (b64_char n) "=" = false.
Proof.
  unfold b64_char.
  change 63%N with (N.ones 6). rewrite N.land_ones.
  change (2 ^ 6)%N with 64%N.
  assert (Hlt : (n mod 64 < 64)%N) by (apply N.mod_lt; discriminate).
  rewrite <- (N2Nat.id (n mod 64)) at 2.
  assert (Hk : N.to_nat (n mod 64) < 64) by lia.
  generalize dependent (N.to_nat (n mod 64)). intros k Hk.
  do 64 (destruct k as [|k]; [split; reflexivity|]).
  lia.
Qed.

Lemma sextets_value (n : N) :
  (n < 16777216 ->
   (n / 262144) mod 64 * 262144 + (n / 4096) mod 64 * 4096
   + (n / 64) mod 64 * 64 + n mod 64 = n)%N.
Proof.
  intros Hn.
  change 262144%N with (64 * 64 * 64)%N. change 4096%N with (64 * 64)%N.
  rewrite <- !N.Div0.div_div.
  pose proof (N.div_mod' n 64) as H1.
  pose proof (N.div_mod' (n / 64) 64) as H2.
  pose proof (N.div_mod' (n / 64 / 64) 64) as H3.
  assert (B1 : (n mod 64 < 64)%N) by (apply N.mod_lt; discriminate).
  assert (B2 : ((n / 64) mod 64 < 64)%N) by (apply N.mod_lt; discriminate).
  assert (B3 : ((n / 64 / 64) mod 64 < 64)%N) by (apply N.mod_lt; discriminate).
  assert (Hq : (n / 64 / 64 / 64 < 64)%N).
  { rewrite !N.Div0.div_div. apply N.Div0.div_lt_upper_bound. exact Hn. }
  rewrite (N.mod_small (n / 64 / 64 / 64) 64) by exact Hq.
  pose proof (N.div_mod' (n / 64 / 64 / 64) 64) as H4.
  rewrite (N.mod_small (n / 64 / 64 / 64) 64) in H4 by exact Hq.
  lia.
Qed.

Lemma group_bytes (a b c : N) :
  (a < 256 -> b < 256 -> c < 256 ->
   let n := a * 65536 + b * 256 + c in
   n / 65536 = a /\ (n / 256) mod 256 = b /\ n mod 256 = c)%N.
Proof.
  intros Ha Hb Hc n. subst n. repeat split.
  - symmetry. apply (N.div_unique _ _ _ (b * 256 + c)%N); lia.
  - replace ((a * 65536 + b * 256 + c) / 256)%N with (a * 256 + b)%N
      by (apply (N.div_unique _ _ _ c); lia).
    symmetry. apply (N.mod_unique _ _ a); lia.
  - symmetry. apply (N.mod_unique _ _ (a * 256 + b)%N); lia.
Qed.

Lemma mod_64_of_mul_256 (x : N) : ((x * 256) mod 64 = 0)%N.
Proof.
  replace (x * 256)%N with (x * 4 * 64)%N by lia. apply N.Div0.mod_mul.
Qed.

Lemma div_64_of_mul_65536 (x : N) : (x * 65536 / 64 = x * 16 * 64)%N.
Proof.
  replace (x * 65536)%N with (x * 16 * 64 * 64)%N by lia.
  apply N.div_mul. discriminate.
Qed.

Ltac sextets :=
  repeat match goal with
         | |- context [b64_index (b64_char ?x)] =>
             rewrite (proj1 (b64_char_spec x))
         | |- context [Ascii.eqb (b64_char ?x) "="] =>
             rewrite (proj2 (b64_char_spec x))
         end;
  rewrite ?N.shiftr_div_pow2;
  change (2 ^ 18)%N with 262144%N; change (2 ^ 12)%N with 4096%N;
  change (2 ^ 6)%N with 64%N.

(** What [b64encode] writes can be read back. *)
Lemma b64_unpack_b64encode (data : list byte) :
  b64_unpack (b64encode data) = data.
Proof.
  induction data as [|a|a b|a b c rest IH] using list_ind3.
  - reflexivity.
  - cbn [b64encode b64_unpack]. cbv zeta.
    change (Ascii.eqb "=" "=") with true. cbv iota.
    change (b64_index "=") with 0%N. sextets.
    rewrite N.shiftl_mul_pow2. change (2 ^ 16)%N with 65536%N.
    set (n := (Byte.to_N a * 65536)%N).
    pose proof (byte_lt_256 a) as Ha.
    assert (Hn : (n < 16777216)%N) by (subst n; lia).
    pose proof (sextets_value n Hn) as Hs.
    assert (H4 : (n mod 64 = 0)%N).
    { subst n. replace (Byte.to_N a * 65536)%N with (Byte.to_N a * 256 * 256)%N
        by lia. apply mod_64_of_mul_256. }
    assert (H3 : ((n / 64) mod 64 = 0)%N).
    { subst n. rewrite div_64_of_mul_65536. apply N.Div0.mod_mul. }
    rewrite H3, H4 in Hs.
    replace ((n / 262144) mod 64 * 262144 + (n / 4096) mod 64 * 4096 + 0 * 64 + 0)%N
      with n by lia.
    subst n. rewrite N.div_mul by discriminate.
    unfold byte_of_N. now rewrite Byte.of_to_N.
  - cbn [b64encode b64_unpack]. cbv zeta. sextets.
    change (Ascii.eqb "=" "=") with true. cbv iota.
    change (b64_index "=") with 0%N.
    rewrite !N.shiftl_mul_pow2.
    pose proof (byte_lt_256 a) as Ha. pose proof (byte_lt_256 b) as Hb.
    rewrite (lor_mul_pow2_add (Byte.to_N a) (Byte.to_N b * 2 ^ 8) 16)
      by (change (2 ^ 8)%N with 256%N; change (2 ^ 16)%N with 65536%N; lia).
    change (2 ^ 16)%N with 65536%N. change (2 ^ 8)%N with 256%N.
    set (n := (Byte.to_N a * 65536 + Byte.to_N b * 256)%N).
    assert (Hn : (n < 16777216)%N) by (subst n; lia).
    pose proof (sextets_value n Hn) as Hs.
    assert (H4 : (n mod 64 = 0)%N).
    { subst n.
      replace (Byte.to_N a * 65536 + Byte.to_N b * 256)%N
        with ((Byte.to_N a * 256 + Byte.to_N b) * 256)%N by lia.
      apply mod_64_of_mul_256. }
    rewrite H4 in Hs.
    replace ((n / 262144) mod 64 * 262144 + (n / 4096) mod 64 * 4096
             + (n / 64) mod 64 * 64 + 0)%N with n by lia.
    destruct (group_bytes (Byte.to_N a) (Byte.to_N b) 0 Ha Hb eq_refl)
      as (Ga & Gb & _).
    replace (Byte.to_N a * 65536 + Byte.to_N b * 256 + 0)%N with n in Ga, Gb
      by (subst n; lia).
    rewrite Ga, Gb. unfold byte_of_N. now rewrite !Byte.of_to_N.
  - cbn [b64encode b64_unpack]. cbv zeta. sextets.
    rewrite group_value.
    pose proof (byte_lt_256 a) as Ha. pose proof (byte_lt_256 b) as Hb.
    pose proof (byte_lt_256 c) as Hc.
    set (n := (Byte.to_N a * 65536 + Byte.to_N b * 256 + Byte.to_N c)%N).
    assert (Hn : (n < 16777216)%N) by (subst n; lia).
    rewrite (sextets_value n Hn).
    destruct (group_bytes (Byte.to_N a) (Byte.to_N b) (Byte.to_N c) Ha Hb Hc)
      as (Ga & Gb & Gc).
    fold n in Ga, Gb, Gc. rewrite Ga, Gb, Gc, IH.
    unfold byte_of_N. now rewrite !Byte.of_to_N.
Qed.

(** Two frames with the same base64 text are the same frame: the relay
    sends different events upstream for different frames. *)
Theorem b64encode_injective (data data' : list byte) :
  b64encode data = b64encode data' -> data = data'.
Proof.
  intros H. rewrite <- (b64_unpack_b64encode data), H.
  apply b64_unpack_b64encode.
Qed.

Lemma b64encode_injective_witness :
  bytes_of "Man" = [Byte.x4d; Byte.x61; Byte.x6e].
Proof.
  apply (b64encode_injective (bytes_of "Man") [Byte.x4d; Byte.x61; Byte.x6e]).
  reflexivity.
Defined.

(* ================================================================= *)
(** ** The record sent to the webhook *)

Lemma dict_get_set_same items key value default :
  dict_get (dict_set items key value) key default = value.
Proof.
  induction items as [|[k v] rest IH]; simpl.
  - now rewrite String.eqb_refl.
  - destruct (k =? key)%string eqn:Hk; simpl; now rewrite Hk.
Qed.

Lemma dict_get_set_other items key value key' default :
  key' <> key ->
  dict_get (dict_set items key value) key' default = dict_get items key' default.
Proof.
  intros Hne. induction items as [|[k v] rest IH]; simpl.
  - destruct (key =? key')%string eqn:Hk; [|reflexivity].
    apply String.eqb_eq in Hk. congruence.
  - destruct (k =? key)%string eqn:Hk; simpl.
    + apply String.eqb_eq in Hk. subst k.
      destruct (key =? key')%string eqn:Hk'; [|reflexivity].
      apply String.eqb_eq in Hk'. congruence.
    + destruct (k =? key')%string; [reflexivity|exact IH].
Qed.

(** The booking check never raises and assigns no variable; it makes
    one completion call and at most one POST, and nothing else. *)
Theorem check_for_booking_is_contained
  (E : env) (history : list turn) (w : world) :
  exists calls,
    check_for_booking E history w = (Return tt, set_trace (trace w ++ calls) w) /\
    completions calls = 1 /\
    posts calls <= 1 /\
    Forall (fun e => is_extraction_call e = true) calls.
Proof.
  rewrite check_for_booking_run. eexists. split; [reflexivity|].
  set (answer := chat_completions_create E _).
  split; [|split].
  - unfold completions. cbn [filter is_completion].
    now rewrite booking_calls_no_completion.
  - unfold posts. cbn [filter is_post].
    pose proof (booking_calls_at_most_one E answer) as H.
    pose proof (filter_length_le is_post (booking_calls E answer)). lia.
  - constructor; [reflexivity|apply booking_calls_are_extraction_calls].
Qed.

(** A POST made by the booking check goes to the configured URL and
    carries the arguments of the first tool call of the completion, which
    are a [dict]: the [action] is [book], whatever the arguments said,
    and every other key has the value the arguments gave it. *)
Theorem posted_booking_record
  (E : env) (history : list turn) (w : world) (calls : list effect)
  (url : string) (data : json) :
  trace (snd (check_for_booking E history w)) = trace w ++ calls ->
  In (Post url data) calls ->
  exists message args others record,
    chat_completions_create E (trace w ++ [ChatCompletion history]) = inr message /\
    tool_calls message = inr (JObj args) :: others /\
    MAKE_WEBHOOK_URL E = Some url /\
    data = JObj record /\
    (forall default, dict_get record "action" default = JStr "book") /\
    (forall key default,
        key <> "action" -> dict_get record key default = dict_get args key default).
Proof.
  rewrite check_for_booking_run. cbn [snd trace set_trace].
  intros Hcalls Hin. apply app_inv_head in Hcalls. subst calls.
  destruct Hin as [Hin|Hin]; [discriminate|].
  unfold booking_calls, webhook_calls in Hin.
  destruct (chat_completions_create E _) as [x|message]; [contradiction|].
  destruct (tool_calls message) as [|[x|[]] others] eqn:Htool; try contradiction.
  destruct (MAKE_WEBHOOK_URL E) as [[|c u]|] eqn:Hurl; try contradiction.
  destruct Hin as [Hin|[]]. injection Hin as <- <-.
  exists message, items, others, (dict_set items "action" (JStr "book")).
  repeat split; auto.
  - intros default. apply dict_get_set_same.
  - intros key default Hne. now apply dict_get_set_other.
Qed.

Lemma posted_booking_record_witness :
  exists message args others record,
    chat_completions_create (env_with two_tool_calls 200)
      (trace session_world ++ [ChatCompletion initial_session_chat_history])
    = inr message /\
    tool_calls message = inr (JObj args) :: others /\
    MAKE_WEBHOOK_URL (env_with two_tool_calls 200)
    = Some "https://hook.make.example/booking" /\
    JObj [("name", JStr "Jane"); ("action", JStr "book")] = JObj record /\
    (forall default, dict_get record "action" default = JStr "book") /\
    (forall key default,
        key <> "action" -> dict_get record key default = dict_get args key default).
Proof.
  apply (posted_booking_record (env_with two_tool_calls 200)
           initial_session_chat_history session_world
           [ChatCompletion initial_session_chat_history;
            Post "https://hook.make.example/booking"
              (JObj [("name", JStr "Jane"); ("action", JStr "book")])]).
  - reflexivity.
  - simpl. auto.
Defined.

(* ================================================================= *)
(** ** The replies of the plain-text processor *)

Lemma send_to_make_true E data w url :
  MAKE_WEBHOOK_URL E = Some url ->
  url <> "" ->
  requests_post E (trace w ++ [Post url data]) = inr 200%Z ->
  send_to_make E data w = (Return true, set_trace (trace w ++ [Post url data]) w).
Proof.
  intros Hurl Hne Hpost. unfold send_to_make. rewrite Hurl.
  destruct url as [|c u]; [congruence|].
  unfold try_except, bind. now rewrite (call_inr _ _ _ _ Hpost).
Qed.

Lemma send_to_make_false E data w :
  (forall url, MAKE_WEBHOOK_URL E = Some url -> url <> "" ->
               delivery_failed (requests_post E (trace w ++ [Post url data]))) ->
  fst (send_to_make E data w) = Return false.
Proof.
  intros Hfail. unfold send_to_make.
  destruct (MAKE_WEBHOOK_URL E) as [[|c u]|] eqn:Hurl; try reflexivity.
  specialize (Hfail (String c u) eq_refl ltac:(discriminate)).
  unfold try_except, bind, call, ret. cbn [trace set_trace].
  destruct (requests_post E _) as [x|status]; [reflexivity|].
  cbn. destruct (status =? 200)%Z eqn:Hs; [|reflexivity].
  apply Z.eqb_eq in Hs. subst status. now elim Hfail.
Qed.

Lemma process_user_message_exact (E : env) (user_message : json) (w : world) :
  let history := chat_history w ++ user_turns user_message in
  let answer :=
    chat_completions_create E (trace w ++ [ChatCompletion history]) in
  let w1 := World history (session_chat_history w) (current_ai_response w)
              (trace w ++ [ChatCompletion history]) in
  process_user_message E user_message w
  = (Return (reply_of E answer w1),
     World (history ++ [Turn assistant (reply_of E answer w1)])
       (session_chat_history w) (current_ai_response w)
       (trace w ++ ChatCompletion history :: booking_calls E answer)).
Proof.
  destruct w as [ch sh cur tr].
  unfold process_user_message, user_turns, chat_history_append, reply_of,
    booking_calls.
  destruct (truthy user_message);
    unfold bind, try_except, get, call, modify, ret; simpl;
    rewrite ?app_nil_r;
    (destruct (chat_completions_create E _) as [x|message]; simpl;
     [ reflexivity | ]);
    (destruct (tool_calls message) as [|[x|function_args] others]; simpl;
     [ reflexivity | reflexivity | ]);
    (destruct function_args; simpl; try reflexivity);
    unfold set_trace, set_chat_history;
    cbn [chat_history session_chat_history current_ai_response trace];
    match goal with
    | |- context [send_to_make E ?d ?w0] =>
        destruct (send_to_make_run E d w0) as [success Hrun]; rewrite Hrun
    end;
    destruct success; simpl; unfold confirmation, BOOKING_FAILED;
    now rewrite <- ?app_assoc.
Qed.

(** Every call of [process_user_message] makes exactly one completion
    call, on the history with the new user turn at its end; it makes a
    POST only for a tool call whose arguments are a [dict], and at most
    one; it never raises, and it leaves the variables of the voice
    session alone. *)
Theorem process_user_message_calls (E : env) (user_message : json) (w : world) :
  let history := chat_history w ++ user_turns user_message in
  let answer :=
    chat_completions_create E (trace w ++ [ChatCompletion history]) in
  let w' := snd (process_user_message E user_message w) in
  (exists reply, fst (process_user_message E user_message w) = Return reply) /\
  trace w' = trace w ++ ChatCompletion history :: booking_calls E answer /\
  completions (ChatCompletion history :: booking_calls E answer) = 1 /\
  posts (ChatCompletion history :: booking_calls E answer) <= 1 /\
  session_chat_history w' = session_chat_history w /\
  current_ai_response w' = current_ai_response w.
Proof.
  intros history answer w'. subst w'.
  rewrite process_user_message_exact. cbn [fst snd trace session_chat_history
                                             current_ai_response].
  fold history. fold answer.
  repeat split; eauto.
  - unfold completions. cbn [filter is_completion].
    now rewrite booking_calls_no_completion.
  - unfold posts. cbn [filter is_post].
    pose proof (booking_calls_at_most_one E answer).
    pose proof (filter_length_le is_post (booking_calls E answer)). lia.
Qed.

(** A completion without a tool call: its content is the reply, and no
    POST is made. *)
Theorem plain_completion_is_the_reply
  (E : env) (user_message : json) (w : world) (message : chat_message) :
  let history := chat_history w ++ user_turns user_message in
  chat_completions_create E (trace w ++ [ChatCompletion history]) = inr message ->
  tool_calls message = [] ->
  process_user_message E user_message w
  = (Return (content message),
     World (history ++ [Turn assistant (content message)])
       (session_chat_history w) (current_ai_response w)
       (trace w ++ [ChatCompletion history])).
Proof.
  intros history Hllm Htool. rewrite process_user_message_exact.
  fold history. rewrite Hllm. unfold reply_of, booking_calls. now rewrite Htool.
Qed.

Lemma plain_completion_is_the_reply_witness :
  process_user_message (env_with plain_reply 200) (JStr "Hi") initial_world
  = (Return (JStr "How can I help?"),
     World ((initial_chat_history ++ [Turn user (JStr "Hi")])
            ++ [Turn assistant (JStr "How can I help?")])
       [] "" [ChatCompletion (initial_chat_history ++ [Turn user (JStr "Hi")])]).
Proof.
  apply (plain_completion_is_the_reply (env_with plain_reply 200) (JStr "Hi")
           initial_world plain_reply); reflexivity.
Defined.

(** A tool call that cannot be used, because its arguments do not parse
    or are not a [dict]: the reply is the fixed apology, as when the
    completion call itself raises, and no POST is made. *)
Theorem unusable_tool_call_gives_the_apology
  (E : env) (user_message : json) (w : world) :
  let history := chat_history w ++ user_turns user_message in
  booking_check_raises
    (chat_completions_create E (trace w ++ [ChatCompletion history])) = true ->
  process_user_message E user_message w
  = (Return (JStr FALLBACK_REPLY),
     World (history ++ [Turn assistant (JStr FALLBACK_REPLY)])
       (session_chat_history w) (current_ai_response w)
       (trace w ++ [ChatCompletion history])).
Proof.
  intros history Hraises. rewrite process_user_message_exact. fold history.
  rewrite (booking_calls_when_raises E _ Hraises).
  revert Hraises. unfold booking_check_raises, reply_of.
  destruct (chat_completions_create E _) as [x|message]; [reflexivity|].
  destruct (tool_calls message) as [|[x|[]] others];
    reflexivity || discriminate.
Qed.

Lemma unusable_tool_call_gives_the_apology_witness :
  process_user_message (env_with list_args_reply 200) (JStr "Book it")
    initial_world
  = (Return (JStr FALLBACK_REPLY),
     World ((initial_chat_history ++ [Turn user (JStr "Book it")])
            ++ [Turn assistant (JStr FALLBACK_REPLY)])
       [] ""
       [ChatCompletion (initial_chat_history ++ [Turn user (JStr "Book it")])]).
Proof.
  apply (unusable_tool_call_gives_the_apology (env_with list_args_reply 200)
           (JStr "Book it") initial_world).
  reflexivity.
Defined.

(** A tool call with a [dict] of arguments and a webhook that answers
    200: the reply confirms the booking with the service, date and time
    of the arguments, each replaced by a fixed phrase when the arguments
    do not have it. *)
Theorem booking_is_confirmed
  (E : env) (user_message : json) (w : world) (message : chat_message)
  (args : list (string * json)) (others : list (exn + json)) (url : string) :
  let history := chat_history w ++ user_turns user_message in
  let record := JObj (dict_set args "action" (JStr "book")) in
  chat_completions_create E (trace w ++ [ChatCompletion history]) = inr message ->
  tool_calls message = inr (JObj args) :: others ->
  MAKE_WEBHOOK_URL E = Some url ->
  url <> "" ->
  requests_post E (trace w ++ [ChatCompletion history; Post url record])
  = inr 200%Z ->
  fst (process_user_message E user_message w)
  = Return
      (JStr ("✅ Your appointment for "
             ++ fmt E (dict_get args "service" (JStr "your service"))
             ++ " on " ++ fmt E (dict_get args "date" (JStr "the selected date"))
             ++ " at " ++ fmt E (dict_get args "time" (JStr "the selected time"))
             ++ " is booked.")).
Proof.
  intros history record Hllm Htool Hurl Hne Hpost.
  rewrite process_user_message_exact. fold history. rewrite Hllm.
  unfold reply_of. rewrite Htool. cbv zeta. fold record.
  rewrite (send_to_make_true E record _ url Hurl Hne)
    by (cbn [trace]; now rewrite <- app_assoc).
  cbn [fst]. unfold confirmation.
  now rewrite !dict_get_set_other by discriminate.
Qed.

Lemma booking_is_confirmed_witness :
  fst (process_user_message (env_with no_date_reply 200) (JStr "Book it")
         initial_world)
  = Return
      (JStr "✅ Your appointment for haircut on the selected date at 15:00 is booked.").
Proof.
  apply (booking_is_confirmed (env_with no_date_reply 200) (JStr "Book it")
           initial_world no_date_reply
           [("service", JStr "haircut"); ("time", JStr "15:00")] []
           "https://hook.make.example/booking");
    reflexivity || discriminate.
Defined.

(** A tool call with a [dict] of arguments and a webhook that is not
    configured, raises or answers another status than 200: the reply
    says that the booking failed. *)
Theorem booking_failure_is_reported
  (E : env) (user_message : json) (w : world) (message : chat_message)
  (args : list (string * json)) (others : list (exn + json)) :
  let history := chat_history w ++ user_turns user_message in
  let record := JObj (dict_set args "action" (JStr "book")) in
  chat_completions_create E (trace w ++ [ChatCompletion history]) = inr message ->
  tool_calls message = inr (JObj args) :: others ->
  (forall url,
      MAKE_WEBHOOK_URL E = Some url -> url <> "" ->
      delivery_failed
        (requests_post E (trace w ++ [ChatCompletion history; Post url record]))) ->
  fst (process_user_message E user_message w)
  = Return (JStr "❌ Booking failed. Please try again.").
Proof.
  intros history record Hllm Htool Hfail.
  rewrite process_user_message_exact. fold history. rewrite Hllm.
  unfold reply_of. rewrite Htool. cbv zeta. fold record.
  rewrite send_to_make_false; [reflexivity|].
  intros url Hurl Hne. cbn [trace]. rewrite <- app_assoc.
  now apply Hfail.
Qed.

Lemma booking_failure_is_reported_witness :
  fst (process_user_message env_no_webhook (JStr "Book it") initial_world)
  = Return (JStr "❌ Booking failed. Please try again.").
Proof.
  apply (booking_failure_is_reported env_no_webhook (JStr "Book it")
           initial_world booking_reply
           [("name", JStr "Jane"); ("email", JStr "jane@x.com");
            ("phone", JStr "555-1234"); ("service", JStr "haircut");
            ("date", JStr "2025-01-10"); ("time", JStr "15:00")] []).
  - reflexivity.
  - reflexivity.
  - intros url H. discriminate H.
Defined.

(* ================================================================= *)
(** ** Successive requests to the plain-text endpoint *)

(** The history is shared by all requests and only grows: after a run of
    requests it is the history before them followed, request by request,
    by the user turn of the message (when it is not empty) and the
    assistant turn of its reply.  There is one reply and one completion
    call per request, never an exception, and the variables of the voice
    session are not touched. *)
Theorem chat_requests_accumulate (E : env) (messages : list json) :
  forall w, exists replies w',
    chat_requests E messages w = (Return replies, w') /\
    List.length replies = List.length messages /\
    chat_history w' = chat_history w ++ dialogue messages replies /\
    completions (trace w') = completions (trace w) + List.length messages /\
    session_chat_history w' = session_chat_history w /\
    current_ai_response w' = current_ai_response w.
Proof.
  induction messages as [|message rest IH]; intros w.
  - exists [], w. cbn. now rewrite app_nil_r, Nat.add_0_r.
  - cbn [chat_requests]. unfold bind at 1.
    rewrite process_user_message_exact.
    set (history := chat_history w ++ user_turns message).
    set (answer := chat_completions_create E _).
    set (reply := reply_of E answer _).
    set (w1 := World _ _ _ _).
    destruct (IH w1) as (replies & w2 & Hrun & Hlen & Hhist & Hcalls & Hs & Hc).
    unfold bind. rewrite Hrun.
    exists (reply :: replies), w2.
    split; [reflexivity|]. split; [cbn [List.length]; now rewrite Hlen|].
    split; [|split; [|split; [rewrite Hs|rewrite Hc]; reflexivity]].
    + rewrite Hhist. subst w1 history. cbn [chat_history dialogue].
      now rewrite <- !app_assoc.
    + rewrite Hcalls. subst w1. cbn [trace List.length].
      unfold completions. rewrite filter_app. cbn [filter is_completion].
      rewrite booking_calls_no_completion, length_app. cbn [List.length]. lia.
Qed.

(** The second of two requests is answered from a history that holds the
    first message and its reply. *)
Example second_request_sees_the_first :
  trace (snd (chat_requests (env_with plain_reply 200)
                [JStr "Hi"; JStr ""; JStr "Bye"] initial_world))
  = [ChatCompletion
       [Turn system (JStr SYSTEM_INSTRUCTIONS); Turn user (JStr "Hi")];
     ChatCompletion
       [Turn system (JStr SYSTEM_INSTRUCTIONS); Turn user (JStr "Hi");
        Turn assistant (JStr "How can I help?")];
     ChatCompletion
       [Turn system (JStr SYSTEM_INSTRUCTIONS); Turn user (JStr "Hi");
        Turn assistant (JStr "How can I help?");
        Turn assistant (JStr "How can I help?"); Turn user (JStr "Bye")]].
Proof. vm_compute. reflexivity. Qed.

(* ================================================================= *)
(** ** The [/chat] endpoint *)

(** A request whose body is a JSON object: the message is the value of
    its [message] key, the empty string when the key is missing; the
    response is an object with the one key [reply], and the reply is the
    last turn of the history. *)
Theorem chat_endpoint_replies
  (E : env) (items : list (string * json)) (w : world) :
  let message := dict_get items "message" (JStr "") in
  exists reply w',
    chat_endpoint E (inr (JObj items)) w = (Return (JObj [("reply", reply)]), w') /\
    process_user_message E message w = (Return reply, w') /\
    chat_history w' = chat_history w ++ user_turns message ++ [Turn assistant reply].
Proof.
  intros message. unfold chat_endpoint, json_loads, lift_result, py_get.
  unfold bind at 1. unfold ret at 1. unfold bind at 1. unfold ret at 1.
  fold message. unfold bind.
  rewrite process_user_message_exact. do 2 eexists. cbn [ret].
  split; [reflexivity|]. split; [reflexivity|].
  cbn [chat_history]. now rewrite <- app_assoc.
Qed.

(** A request without a [message] adds no user turn: the completion is
    called on the history as it is. *)
Example chat_endpoint_without_message :
  chat_endpoint (env_with plain_reply 200) (inr (JObj [])) initial_world
  = (Return (JObj [("reply", JStr "How can I help?")]),
     World (initial_chat_history ++ [Turn assistant (JStr "How can I help?")])
       [] "" [ChatCompletion initial_chat_history]).
Proof. reflexivity. Qed.

(** A request whose body does not parse, or parses to something that is
    not an object, raises before anything is done: no completion call,
    no turn appended. *)
Theorem chat_endpoint_rejects_other_bodies
  (E : env) (body : exn + json) (w : world) :
  match body with
  | inr (JObj _) => False
  | _ => True
  end ->
  exists e, chat_endpoint E body w = (Raise e, w).
Proof.
  intros Hbody. unfold chat_endpoint, json_loads, lift_result, py_get, bind.
  destruct body as [e|[]]; try contradiction; eexists; reflexivity.
Qed.

Lemma chat_endpoint_rejects_other_bodies_witness :
  exists e,
    chat_endpoint (env_with plain_reply 200) (inr (JArr [JStr "Hi"])) initial_world
    = (Raise e, initial_world).
Proof.
  apply (chat_endpoint_rejects_other_bodies (env_with plain_reply 200)
           (inr (JArr [JStr "Hi"])) initial_world).
  exact I.
Defined.

(* ================================================================= *)
(** ** The audio relay loop when the upstream socket fails *)

Lemma client_loop_world E incoming last :
  forall w, exists n r,
    client_loop E incoming last w
    = (r, set_trace
            (trace w
             ++ firstn n (map forward (filter nonempty (binary_payloads incoming))))
            w).
Proof.
  induction incoming as [|msg rest IH]; intros w.
  - exists 0, (Raise last). cbn. now rewrite app_nil_r, set_trace_same.
  - cbn [client_loop]. unfold bind, client_frame.
    rewrite (binary_payloads_cons msg rest), filter_app, map_app.
    destruct msg as [[|b data]|text|code];
      cbn [msg_bytes binary_payloads flat_map filter nonempty map app ret];
      try apply IH.
    unfold call. cbn [trace set_trace].
    destruct (openai_ws_send E _) as [x|[]].
    + exists 1, (Raise x). reflexivity.
    + destruct (IH (set_trace (trace w ++ [forward (b :: data)]) w))
        as (n & r & Hn).
      exists (S n), r. fold (forward (b :: data)). rewrite Hn.
      cbn [trace set_trace firstn]. now rewrite <- app_assoc.
Qed.

Lemma receive_from_client_world E incoming last w :
  exists sent,
    receive_from_client E incoming last w = (Return tt, set_trace sent w).
Proof.
  destruct (client_loop_world E incoming last w) as (n & r & Hrun).
  eexists. unfold receive_from_client, try_except. rewrite Hrun.
  destruct r as [[]|e]; reflexivity.
Qed.


(** The upstream socket closes after the first frame: the second frame is
    not sent. *)
Example upstream_closed_after_one_frame :
  receive_from_client
    (Env None (fun _ => inr plain_reply) (fun _ => inr 200%Z) ok
       (fun t => match t with
                 | [_] => inr tt
                 | _ => inl (Exn ConnectionClosed "ConnectionClosedError" "")
                 end)
       ok (fun _ => inr []) (fun _ => ""))
    [ReceiveBytes (bytes_of "Man"); ReceiveBytes (bytes_of "Ma");
     ReceiveBytes (bytes_of "M")]
    (RuntimeError "disconnected") initial_world
  = (Return tt,
     set_trace [UpstreamSend (append_event "TWFu"); UpstreamSend (append_event "TWE=")]
       initial_world).
Proof. reflexivity. Qed.

(* ================================================================= *)
(** ** The fan-out loop: events that are ignored, reported or fatal *)

Lemma has_type_false_of_known kind items :
  forallb (fun k => negb (has_type k items)) known_types = true ->
  In kind known_types -> has_type kind items = false.
Proof.
  intros Hall Hin. rewrite forallb_forall in Hall.
  apply negb_true_iff. now apply Hall.
Qed.

(** An event whose [type] is none of the five the loop acts on, or that
    has no [type] at all, is ignored: no call, no assignment, no
    exception. *)
Theorem unknown_event_is_ignored
  (E : env) (items : list (string * json)) (w : world) :
  forallb (fun k => negb (has_type k items)) known_types = true ->
  openai_event E (inr (JObj items)) w = (Return tt, w).
Proof.
  intros Hall.
  pose proof (has_type_false_of_known "response.audio.delta" items Hall) as H1.
  pose proof (has_type_false_of_known "response.audio_transcript.delta" items Hall)
    as H2.
  pose proof (has_type_false_of_known USER_TRANSCRIPT_COMPLETED items Hall) as H3.
  pose proof (has_type_false_of_known "response.done" items Hall) as H4.
  pose proof (has_type_false_of_known "error" items Hall) as H5.
  unfold has_type, USER_TRANSCRIPT_COMPLETED, known_types in *.
  unfold openai_event, json_loads, lift_result, py_get.
  unfold bind at 1; unfold ret at 1.
  unfold bind at 1; unfold ret at 1.
  rewrite H1, H2, H3, H4, H5 by (simpl; tauto).
  reflexivity.
Qed.

Lemma unknown_event_is_ignored_witness :
  openai_event (env_with plain_reply 200)
    (inr (JObj [("type", JStr "session.created")])) session_world
  = (Return tt, session_world).
Proof.
  apply (unknown_event_is_ignored (env_with plain_reply 200)
           [("type", JStr "session.created")] session_world).
  reflexivity.
Defined.

(** An [error] event is passed on as one [error] message carrying the
    [message] of its [error] object, or [Unknown error] when the object
    or its message is missing.  A failure to send it is swallowed: the
    event never raises and assigns nothing. *)
Theorem error_event_is_passed_on
  (E : env) (items detail : list (string * json)) (w : world) :
  has_type "error" items = true ->
  dict_get items "error" (JObj []) = JObj detail ->
  openai_event E (inr (JObj items)) w
  = (Return tt,
     set_trace
       (trace w
        ++ [SendJson (error_msg_json
                        (dict_get detail "message" (JStr "Unknown error")))])
       w).
Proof.
  intros Htype Hdetail. known_type Htype.
  rewrite Hdetail. unfold bind, ret, try_except, call.
  cbn [py_get ret trace set_trace].
  now destruct (websocket_call E _) as [x|[]].
Qed.

Lemma error_event_is_passed_on_witness :
  openai_event (env_with plain_reply 200) (inr (JObj [("type", JStr "error")]))
    session_world
  = (Return tt,
     set_trace [SendJson (error_msg_json (JStr "Unknown error"))] session_world).
Proof.
  apply (error_event_is_passed_on (env_with plain_reply 200)
           [("type", JStr "error")] [] session_world); reflexivity.
Defined.

(** A message that parses but has not the shape its handler takes for
    granted raises, before any call and any assignment. *)
Theorem malformed_event_raises (E : env) (event : json) (w : world) :
  malformed event = true ->
  exists e, openai_event E (inr event) w = (Raise e, w) /\
            exn_class_of e = OtherException.
Proof.
  intros Hmal. unfold openai_event, json_loads, lift_result.
  unfold bind at 1. unfold ret at 1.
  destruct event; try (eexists; split; reflexivity).
  unfold malformed in Hmal. unfold py_get at 1.
  unfold bind at 1. unfold ret at 1.
  apply orb_true_iff in Hmal as [H|H]; apply andb_true_iff in H as [Htype Hshape];
    apply eq_str_true in Htype; rewrite Htype;
    cbn [eq_str String.eqb Ascii.eqb Bool.eqb andb];
    unfold py_get at 1; unfold bind at 1; unfold ret at 1.
  - unfold bind, get.
    destruct (dict_get items "delta" (JStr "")); try discriminate;
      eexists; split; reflexivity.
  - destruct (dict_get items "error" (JObj [])); try discriminate;
      eexists; split; reflexivity.
Qed.

Lemma malformed_event_raises_witness :
  exists e,
    openai_event (env_with plain_reply 200)
      (inr (JObj [("type", JStr "response.audio_transcript.delta");
                  ("delta", JInt 7)])) session_world
    = (Raise e, session_world) /\
    exn_class_of e = OtherException.
Proof.
  apply (malformed_event_raises (env_with plain_reply 200)
           (JObj [("type", JStr "response.audio_transcript.delta");
                  ("delta", JInt 7)]) session_world).
  reflexivity.
Defined.

Lemma openai_loop_end E incoming last w :
  fst (openai_loop E incoming None w) = Return tt ->
  openai_loop E incoming last w
  = (match last with
     | None => Return tt
     | Some e => Raise e
     end, snd (openai_loop E incoming None w)).
Proof.
  intros Hret.
  pose proof (openai_loop_app E incoming [] last w Hret) as H.
  rewrite app_nil_r in H. rewrite H. now destruct last.
Qed.

Lemma openai_loop_stops E incoming message rest last w e w2 :
  fst (openai_loop E incoming None w) = Return tt ->
  openai_event E message (snd (openai_loop E incoming None w)) = (Raise e, w2) ->
  openai_loop E (incoming ++ message :: rest) last w = (Raise e, w2).
Proof.
  intros Hret Hev. rewrite (openai_loop_app E incoming _ last w Hret).
  cbn [openai_loop]. unfold bind. now rewrite Hev.
Qed.

(** The handler of [receive_from_openai] for an exception that is not a
    closed connection: one generic [error] message, sent on a
    best-effort basis. *)
Lemma generic_error_report E w :
  try_except (call (SendJson GENERIC_ERROR) (websocket_call E)) (fun _ => ret tt) w
  = (Return tt, set_trace (trace w ++ [SendJson GENERIC_ERROR]) w).
Proof.
  unfold try_except, call, ret. cbn [trace set_trace].
  now destruct (websocket_call E _) as [x|[]].
Qed.

Lemma receive_from_openai_outcome E incoming last w :
  exists w', receive_from_openai E incoming last w = (Return tt, w').
Proof.
  unfold receive_from_openai. unfold try_except at 1.
  destruct (openai_loop E incoming last w) as [[[]|e] w1]; [eauto|].
  destruct (exn_class_of e); try (eexists; reflexivity);
    fold GENERIC_ERROR; rewrite generic_error_report; eauto.
Qed.

(** [receive_from_openai] never raises, whatever the upstream sends and
    however the sockets, the language model and the webhook fail. *)
Theorem receive_from_openai_never_raises
  (E : env) (incoming : list (exn + json)) (last : option exn) (w : world) :
  fst (receive_from_openai E incoming last w) = Return tt.
Proof.
  destruct (receive_from_openai_outcome E incoming last w) as [w' H].
  now rewrite H.
Qed.

(** When the handling of an upstream message raises anything but a
    closed connection, the loop ends there: the messages that follow are
    not handled, one generic [error] message is sent to the browser and
    [receive_from_openai] returns. *)
Theorem fatal_event_ends_the_loop
  (E : env) (incoming : list (exn + json)) (message : exn + json)
  (rest : list (exn + json)) (last : option exn) (w w2 : world) (e : exn) :
  fst (openai_loop E incoming None w) = Return tt ->
  openai_event E message (snd (openai_loop E incoming None w)) = (Raise e, w2) ->
  exn_class_of e <> ConnectionClosed ->
  receive_from_openai E (incoming ++ message :: rest) last w
  = (Return tt, set_trace (trace w2 ++ [SendJson GENERIC_ERROR]) w2).
Proof.
  intros Hret Hev Hclass. unfold receive_from_openai. unfold try_except at 1.
  rewrite (openai_loop_stops E incoming message rest last w e w2 Hret Hev).
  fold GENERIC_ERROR.
  destruct (exn_class_of e); try apply generic_error_report. congruence.
Qed.

Lemma fatal_event_ends_the_loop_witness :
  receive_from_openai (env_with plain_reply 200)
    ([inr (JObj hello_event)] ++ inr (JObj bad_delta_event) :: [inr (JObj done_event)])
    None session_world
  = (Return tt,
     World initial_chat_history initial_session_chat_history "Hello"
       [SendJson (transcript_msg (JStr "Hello")); SendJson GENERIC_ERROR]).
Proof.
  apply (fatal_event_ends_the_loop (env_with plain_reply 200)
           [inr (JObj hello_event)] (inr (JObj bad_delta_event))
           [inr (JObj done_event)] None session_world
           (World initial_chat_history initial_session_chat_history "Hello"
              [SendJson (transcript_msg (JStr "Hello"))])
           (TypeError ("can only concatenate str (not " ++ dquote ++ "int"
                       ++ dquote ++ ") to str")%string)).
  - reflexivity.
  - reflexivity.
  - discriminate.
Defined.

(** The end of the upstream stream, after messages that were all
    handled: a normal close and a [ConnectionClosed] exception end the
    loop without a word to the browser; any other exception sends the
    generic [error] message. *)
Theorem upstream_close_ends_the_loop
  (E : env) (incoming : list (exn + json)) (last : option exn) (w : world) :
  fst (openai_loop E incoming None w) = Return tt ->
  let w1 := snd (openai_loop E incoming None w) in
  receive_from_openai E incoming last w
  = (Return tt,
     match last with
     | None => w1
     | Some e =>
         match exn_class_of e with
         | ConnectionClosed => w1
         | _ => set_trace (trace w1 ++ [SendJson GENERIC_ERROR]) w1
         end
     end).
Proof.
  intros Hret w1. unfold receive_from_openai. unfold try_except at 1.
  rewrite (openai_loop_end E incoming last w Hret). fold w1.
  destruct last as [e|]; [|reflexivity].
  fold GENERIC_ERROR.
  destruct (exn_class_of e); try (now rewrite generic_error_report).
  reflexivity.
Qed.

Lemma upstream_close_ends_the_loop_witness :
  let E := env_with plain_reply 200 in
  let incoming := [inr (JObj hello_event)] in
  let last := Some (Exn ConnectionClosed "ConnectionClosedError"
                      "no close frame received or sent") in
  let w1 := snd (openai_loop E incoming None session_world) in
  receive_from_openai E incoming last session_world
  = (Return tt,
     match last with
     | None => w1
     | Some e =>
         match exn_class_of e with
         | ConnectionClosed => w1
         | _ => set_trace (trace w1 ++ [SendJson GENERIC_ERROR]) w1
         end
     end).
Proof.
  exact (upstream_close_ends_the_loop (env_with plain_reply 200)
           [inr (JObj hello_event)]
           (Some (Exn ConnectionClosed "ConnectionClosedError"
                    "no close frame received or sent"))
           session_world eq_refl).
Defined.

(* ================================================================= *)
(** ** What the two endpoints keep from each other *)

Section Keeps.

Context {B : Type} (f : world -> B).
Hypothesis f_set_trace : forall t w, f (set_trace t w) = f w.

Lemma keeps_ret {A} (a : A) : keeps f (ret a).
Proof. intros w. reflexivity. Qed.

Lemma keeps_raise {A} (e : exn) : keeps f (@raise A e).
Proof. intros w. reflexivity. Qed.

Lemma keeps_get {A} (g : world -> A) : keeps f (get g).
Proof. intros w. reflexivity. Qed.

Lemma keeps_modify (g : world -> world) :
  (forall w, f (g w) = f w) -> keeps f (modify g).
Proof. intros H w. apply H. Qed.

Lemma keeps_call {A} (e : effect) (answer : list effect -> exn + A) :
  keeps f (call e answer).
Proof. intros w. rewrite call_world. apply f_set_trace. Qed.

Lemma keeps_log (e : effect) : keeps f (log e).
Proof. intros w. apply f_set_trace. Qed.

Lemma keeps_bind {A C} (m : M A) (k : A -> M C) :
  keeps f m -> (forall a, keeps f (k a)) -> keeps f (bind m k).
Proof.
  intros Hm Hk w. unfold bind. specialize (Hm w).
  destruct (m w) as [[a|e] w1]; cbn [snd] in Hm.
  - now rewrite Hk.
  - exact Hm.
Qed.

Lemma keeps_try_except {A} (m : M A) (h : exn -> M A) :
  keeps f m -> (forall e, keeps f (h e)) -> keeps f (try_except m h).
Proof.
  intros Hm Hh w. unfold try_except. specialize (Hm w).
  destruct (m w) as [[a|e] w1]; cbn [snd] in Hm.
  - exact Hm.
  - now rewrite Hh.
Qed.

Lemma keeps_try_finally {A} (m : M A) (c : M unit) :
  keeps f m -> keeps f c -> keeps f (try_finally m c).
Proof.
  intros Hm Hc w. unfold try_finally. specialize (Hm w).
  destruct (m w) as [r w1]. cbn [snd] in Hm. specialize (Hc w1).
  destruct (c w1) as [[[]|e] w2]; cbn [snd] in Hc |- *; congruence.
Qed.

Lemma keeps_gather (a b : M unit) :
  keeps f a -> keeps f b -> keeps f (gather a b).
Proof.
  intros Ha Hb w. unfold gather.
  specialize (Ha (set_trace [] w)).
  destruct (a (set_trace [] w)) as [ra wa]. cbn [snd] in Ha.
  specialize (Hb (set_trace [] wa)).
  destruct (b (set_trace [] wa)) as [rb wb]. cbn [snd] in Hb.
  assert (H : f (set_trace (trace w ++ [Gather (trace wa) (trace wb)]) wb) = f w)
    by (now rewrite f_set_trace, Hb, f_set_trace, Ha, f_set_trace).
  destruct ra, rb; exact H.
Qed.

Lemma keeps_lift_result {A} (r : exn + A) : keeps f (lift_result r).
Proof. destruct r; intros w; reflexivity. Qed.

Lemma keeps_py_get v key default : keeps f (py_get v key default).
Proof. destruct v; intros w; reflexivity. Qed.

Lemma keeps_str_concat s v : keeps f (str_concat s v).
Proof. destruct v; intros w; reflexivity. Qed.

Lemma keeps_check_for_booking E history : keeps f (check_for_booking E history).
Proof. intros w. rewrite check_for_booking_run. apply f_set_trace. Qed.

Lemma keeps_receive_from_client E incoming last :
  keeps f (receive_from_client E incoming last).
Proof.
  intros w. destruct (receive_from_client_world E incoming last w) as [sent H].
  rewrite H. apply f_set_trace.
Qed.

End Keeps.

(** Break a computation into its parts, down to the calls and the
    assignments. *)
Ltac keeps_step :=
  first
    [ apply keeps_check_for_booking
    | apply keeps_receive_from_client
    | apply keeps_bind; [|intros ?]
    | apply keeps_try_except; [|intros ?]
    | apply keeps_try_finally
    | apply keeps_gather
    | apply keeps_modify; intros ?; reflexivity
    | apply keeps_call
    | apply keeps_log
    | apply keeps_ret
    | apply keeps_raise
    | apply keeps_get
    | apply keeps_lift_result
    | apply keeps_py_get
    | apply keeps_str_concat
    | intros ? ?; reflexivity
    | match goal with
      | |- keeps _ (if ?c then _ else _) => destruct c
      | |- keeps _ (match ?x with _ => _ end) => destruct x
      end ].

Lemma keeps_chat_history_openai_event E message :
  keeps chat_history (openai_event E message).
Proof.
  unfold openai_event, json_loads, session_chat_history_append.
  repeat keeps_step.
Qed.

Lemma keeps_chat_history_openai_loop E incoming last :
  keeps chat_history (openai_loop E incoming last).
Proof.
  induction incoming as [|message rest IH]; cbn [openai_loop].
  - destruct last; intros w; reflexivity.
  - apply keeps_bind; [apply keeps_chat_history_openai_event|intros _; exact IH].
Qed.

Lemma keeps_chat_history_receive_from_openai E incoming last :
  keeps chat_history (receive_from_openai E incoming last).
Proof.
  unfold receive_from_openai.
  apply keeps_try_except; [apply keeps_chat_history_openai_loop|].
  intros e. repeat keeps_step.
Qed.

(** A voice session never assigns the history of the plain-text
    endpoint, whatever the two sockets deliver and however the calls
    fail. *)
Theorem ws_voice_keeps_chat_history
  (E : env) (client_in : list asgi_message) (client_last : exn)
  (upstream_in : list (exn + json)) (upstream_last : option exn) (w : world) :
  chat_history (snd (ws_voice E client_in client_last upstream_in upstream_last w))
  = chat_history w.
Proof.
  revert w. change (keeps chat_history
                      (ws_voice E client_in client_last upstream_in upstream_last)).
  unfold ws_voice, report_and_close.
  repeat first [ apply keeps_chat_history_receive_from_openai | keeps_step ].
Qed.

Lemma appends_of_keeps {A B} (f : world -> list B) (m : M A) :
  keeps f m -> appends f m.
Proof. intros H w. exists []. now rewrite H, app_nil_r. Qed.

Lemma appends_bind {A B C} (f : world -> list B) (m : M A) (k : A -> M C) :
  appends f m -> (forall a, appends f (k a)) -> appends f (bind m k).
Proof.
  intros Hm Hk w. unfold bind.
  destruct (Hm w) as [l1 H1]. destruct (m w) as [[a|e] w1]; cbn [snd] in H1.
  - destruct (Hk a w1) as [l2 H2]. exists (l1 ++ l2).
    now rewrite H2, H1, app_assoc.
  - exists l1. exact H1.
Qed.

Lemma appends_try_except {A B} (f : world -> list B) (m : M A) (h : exn -> M A) :
  appends f m -> (forall e, appends f (h e)) -> appends f (try_except m h).
Proof.
  intros Hm Hh w. unfold try_except.
  destruct (Hm w) as [l1 H1]. destruct (m w) as [[a|e] w1]; cbn [snd] in H1.
  - exists l1. exact H1.
  - destruct (Hh e w1) as [l2 H2]. exists (l1 ++ l2).
    now rewrite H2, H1, app_assoc.
Qed.

Lemma appends_session_chat_history_append t :
  appends session_chat_history (session_chat_history_append t).
Proof. intros w. exists [t]. reflexivity. Qed.

Ltac appends_step :=
  first
    [ apply appends_session_chat_history_append
    | apply appends_of_keeps; solve [repeat keeps_step]
    | apply appends_bind; [|intros ?]
    | apply appends_try_except; [|intros ?]
    | match goal with
      | |- appends _ (if ?c then _ else _) => destruct c
      | |- appends _ (match ?x with _ => _ end) => destruct x
      end ].

Lemma appends_openai_event E message :
  appends session_chat_history (openai_event E message).
Proof.
  unfold openai_event, json_loads.
  repeat appends_step.
Qed.

Lemma appends_openai_loop E incoming last :
  appends session_chat_history (openai_loop E incoming last).
Proof.
  induction incoming as [|message rest IH]; cbn [openai_loop].
  - apply appends_of_keeps. destruct last; intros w; reflexivity.
  - apply appends_bind; [apply appends_openai_event|intros _; exact IH].
Qed.

(** The log of a session is append-only: whatever the upstream sends and
    whatever fails, [receive_from_openai] leaves the turns already in the
    log where they are and only adds turns after them. *)
Theorem session_log_is_append_only
  (E : env) (incoming : list (exn + json)) (last : option exn) (w : world) :
  exists turns,
    session_chat_history (snd (receive_from_openai E incoming last w))
    = session_chat_history w ++ turns.
Proof.
  revert w. change (appends session_chat_history
                      (receive_from_openai E incoming last)).
  unfold receive_from_openai.
  apply appends_try_except; [apply appends_openai_loop|].
  intros e. repeat appends_step.
Qed.

(* ================================================================= *)
(** ** The course of a voice session *)

(** When the browser socket is accepted, the upstream connection is made
    and the configuration is sent, [ws_voice] returns without an
    exception after these calls, in this order: accept, connect, the one
    [session.update] message, the two loops side by side, the close of
    the upstream connection.  Both loops start from a fresh session (the
    log holds the system turn, the buffer is empty), and the variables
    at the end are those the upstream loop leaves. *)
Theorem voice_session_runs_both_loops
  (E : env) (client_in : list asgi_message) (client_last : exn)
  (upstream_in : list (exn + json)) (upstream_last : option exn) (w : world) :
  websocket_call E (trace w ++ [Accept]) = inr tt ->
  websockets_connect E (trace w ++ [Accept; Connect]) = inr tt ->
  openai_ws_send E (trace w ++ [Accept; Connect; UpstreamSend session_config])
  = inr tt ->
  let fresh := fresh_session (chat_history w) in
  let sent := trace (snd (receive_from_client E client_in client_last fresh)) in
  let wu := snd (receive_from_openai E upstream_in upstream_last fresh) in
  ws_voice E client_in client_last upstream_in upstream_last w
  = (Return tt,
     set_trace
       (trace w ++ [Accept; Connect; UpstreamSend session_config;
                    Gather sent (trace wu); UpstreamClose])
       wu).
Proof.
  intros Haccept Hconnect Hconfig fresh sent wu.
  unfold ws_voice.
  unfold bind at 1. rewrite (call_inr Accept _ w tt Haccept).
  unfold bind at 1. unfold modify at 1.
  unfold try_except. unfold bind at 1.
  rewrite (call_inr Connect (websockets_connect E) _ tt)
    by (cbn [trace set_trace set_session_chat_history];
        now rewrite <- app_assoc).
  unfold try_finally. unfold bind at 1.
  rewrite (call_inr (UpstreamSend session_config) (openai_ws_send E) _ tt)
    by (cbn [trace set_trace set_session_chat_history];
        now rewrite <- !app_assoc).
  unfold bind at 1. unfold modify at 1. unfold gather.
  match goal with
  | |- context [receive_from_client E client_in client_last ?x] =>
      change x with fresh
  end.
  destruct (receive_from_client_world E client_in client_last fresh)
    as [sent' Hclient].
  subst sent. rewrite Hclient. cbn [snd].
  match goal with
  | |- context [receive_from_openai E upstream_in upstream_last ?x] =>
      change x with fresh
  end.
  destruct (receive_from_openai_outcome E upstream_in upstream_last fresh)
    as [wu' Hup].
  subst wu. rewrite Hup. cbn [fst snd].
  unfold log, modify. cbn [set_trace trace chat_history session_chat_history
                             current_ai_response set_session_chat_history
                             set_current_ai_response].
  now rewrite <- !app_assoc.
Qed.

Lemma voice_session_runs_both_loops_witness :
  let E := env_with plain_reply 200 in
  let client_in := [ReceiveBytes (bytes_of "Man")] in
  let upstream_in := [inr (JObj hello_event); inr (JObj done_event)] in
  let fresh := fresh_session (chat_history initial_world) in
  let sent :=
    trace (snd (receive_from_client E client_in (RuntimeError "disconnected")
                  fresh)) in
  let wu := snd (receive_from_openai E upstream_in None fresh) in
  ws_voice E client_in (RuntimeError "disconnected") upstream_in None initial_world
  = (Return tt,
     set_trace
       (trace initial_world
        ++ [Accept; Connect; UpstreamSend session_config;
            Gather sent (trace wu); UpstreamClose])
       wu).
Proof.
  exact (voice_session_runs_both_loops (env_with plain_reply 200)
           [ReceiveBytes (bytes_of "Man")] (RuntimeError "disconnected")
           [inr (JObj hello_event); inr (JObj done_event)] None initial_world
           eq_refl eq_refl eq_refl).
Defined.

(** When the configuration cannot be sent, the upstream connection is
    closed, the browser gets one [error] message that names the
    exception, and its socket is closed; the loops are not started. *)
Theorem failed_configuration_is_reported
  (E : env) (client_in : list asgi_message) (client_last : exn)
  (upstream_in : list (exn + json)) (upstream_last : option exn)
  (e : exn) (w : world) :
  websocket_call E (trace w ++ [Accept]) = inr tt ->
  websockets_connect E (trace w ++ [Accept; Connect]) = inr tt ->
  openai_ws_send E (trace w ++ [Accept; Connect; UpstreamSend session_config])
  = inl e ->
  trace (snd (ws_voice E client_in client_last upstream_in upstream_last w))
  = trace w ++ [Accept; Connect; UpstreamSend session_config; UpstreamClose;
                SendJson (error_msg_json (JStr (connection_error_msg e))); Close].
Proof.
  intros Haccept Hconnect Hconfig.
  unfold ws_voice.
  unfold bind at 1. rewrite (call_inr Accept _ w tt Haccept).
  unfold bind at 1. unfold modify at 1.
  unfold try_except. unfold bind at 1.
  rewrite (call_inr Connect (websockets_connect E) _ tt)
    by (cbn [trace set_trace set_session_chat_history];
        now rewrite <- app_assoc).
  unfold try_finally. unfold bind at 1.
  rewrite (call_inl (UpstreamSend session_config) (openai_ws_send E) _ e)
    by (cbn [trace set_trace set_session_chat_history];
        now rewrite <- !app_assoc).
  unfold log, modify. unfold connection_error_msg.
  destruct (exn_class_of e); rewrite report_and_close_trace;
    cbn [trace set_trace set_session_chat_history];
    now rewrite <- !app_assoc.
Qed.

Lemma failed_configuration_is_reported_witness :
  trace (snd (ws_voice env_config_fails [ReceiveBytes (bytes_of "Man")]
                (RuntimeError "disconnected") [inr (JObj hello_event)] None
                initial_world))
  = [Accept; Connect; UpstreamSend session_config; UpstreamClose;
     SendJson
       (error_msg_json
          (JStr "Connection error: ConnectionClosedError: no close frame received or sent"));
     Close].
Proof.
  exact (failed_configuration_is_reported env_config_fails
           [ReceiveBytes (bytes_of "Man")] (RuntimeError "disconnected")
           [inr (JObj hello_event)] None
           (Exn ConnectionClosed "ConnectionClosedError"
              "no close frame received or sent")
           initial_world eq_refl eq_refl eq_refl).
Defined.

(** When the browser socket cannot be accepted, [ws_voice] raises the
    exception of [accept] and does nothing else: no connection upstream,
    no message, no close, no assignment. *)
Theorem failed_accept_is_raised
  (E : env) (client_in : list asgi_message) (client_last : exn)
  (upstream_in : list (exn + json)) (upstream_last : option exn)
  (e : exn) (w : world) :
  websocket_call E (trace w ++ [Accept]) = inl e ->
  ws_voice E client_in client_last upstream_in upstream_last w
  = (Raise e, set_trace (trace w ++ [Accept]) w).
Proof.
  intros Haccept. unfold ws_voice. unfold bind at 1.
  now rewrite (call_inl Accept _ w e Haccept).
Qed.

Lemma failed_accept_is_raised_witness :
  ws_voice env_client_gone [] (RuntimeError "disconnected") [] None initial_world
  = (Raise (Exn WebSocketDisconnect "WebSocketDisconnect" "1006"),
     set_trace [Accept] initial_world).
Proof.
  exact (failed_accept_is_raised env_client_gone [] (RuntimeError "disconnected")
           [] None (Exn WebSocketDisconnect "WebSocketDisconnect" "1006")
           initial_world eq_refl).
Defined.
